(** * LunarCrush adapter: a shallow embedding and its verified properties

    The development follows the three JavaScript sources of the adapter:
    - [utils/helpers.js]  : [normalizeCoinIdentifier];
    - [auth.js]           : [detectApiTier], [canAccessEndpoint];
    - [index.js]          : [_makeRequest], [_getFallbackData],
                            [_getMockData], the public operations and
                            the three aggregates.

    JavaScript strings are modelled by [string] over 8-bit code units
    (the Latin-1 range), which covers every character that the fixed
    paths, the templates and the regular expressions of the adapter
    mention.  JavaScript numbers are modelled by exact rationals [Q];
    HTTP status codes and times in milliseconds are integers [Z]. *)

From Stdlib Require Import ZArith QArith Qminmax Ascii String List Lia Bool.
From Stdlib Require Import DecimalString.
From stdpp Require Import base gmap strings list.

Local Open Scope string_scope.
Local Open Scope Z_scope.

(** ** Strings as the code uses them *)

Module JsString.

Definition code (c : ascii) : N := N_of_ascii c.

Definition in_range (lo hi : N) (c : ascii) : bool :=
  ((lo <=? code c) && (code c <=? hi))%N.

(** [/[A-Z0-9]/] *)
Definition is_AZ09 (c : ascii) : bool :=
  in_range 65 90 c || in_range 48 57 c.

(** The characters that [toLowerCase] changes, in the Latin-1 range:
    A-Z and the accented capitals U+00C0-U+00DE except the
    multiplication sign U+00D7. *)
Definition is_upper (c : ascii) : bool :=
  in_range 65 90 c || (in_range 192 222 c && negb (code c =? 215)%N).

Definition lower_char (c : ascii) : ascii :=
  if is_upper c then ascii_of_N (code c + 32) else c.

(** [String.prototype.toLowerCase] *)
Fixpoint toLowerCase (s : string) : string :=
  match s with
  | EmptyString => EmptyString
  | String c s' => String (lower_char c) (toLowerCase s')
  end.

(** [/\s/] in the Latin-1 range: TAB, LF, VT, FF, CR, SPACE, NBSP. *)
Definition is_space (c : ascii) : bool :=
  in_range 9 13 c || (code c =? 32)%N || (code c =? 160)%N.

(** [s.replace(/\s+/g, '')]: every maximal run of white space is cut
    out, which removes exactly the white-space characters. *)
Fixpoint strip_spaces (s : string) : string :=
  match s with
  | EmptyString => EmptyString
  | String c s' =>
      if is_space c then strip_spaces s' else String c (strip_spaces s')
  end.

(** [cls{lo,hi}$] tried at the current position: between [lo] and [hi]
    characters of the class and then the end of the input. *)
Fixpoint repeat_to_end (cls : ascii -> bool) (lo hi : nat) (s : string)
  {struct s} : bool :=
  match s with
  | EmptyString => Nat.eqb lo 0
  | String c s' =>
      match hi with
      | O => false
      | S hi' => cls c && repeat_to_end cls (Nat.pred lo) hi' s'
      end
  end.

Fixpoint all_chars (P : ascii -> bool) (s : string) : bool :=
  match s with
  | EmptyString => true
  | String c s' => P c && all_chars P s'
  end.

Fixpoint is_prefix (p s : string) : bool :=
  match p with
  | EmptyString => true
  | String a p' =>
      match s with
      | EmptyString => false
      | String b s' => if Ascii.eqb a b then is_prefix p' s' else false
      end
  end.

(** [s.includes(needle)] *)
Fixpoint includes (needle s : string) : bool :=
  is_prefix needle s ||
  match s with
  | EmptyString => false
  | String _ s' => includes needle s'
  end.

(** [s.split(sep)] for a one-character separator: never empty. *)
Fixpoint split_acc (sep : ascii) (cur : string) (s : string) : list string :=
  match s with
  | EmptyString => [String.rev cur]
  | String c s' =>
      if Ascii.eqb c sep then String.rev cur :: split_acc sep EmptyString s'
      else split_acc sep (String c cur) s'
  end.

Definition split (sep : ascii) (s : string) : list string :=
  split_acc sep EmptyString s.

(** [String.prototype.trim], Latin-1 white space at both ends. *)
Fixpoint trim_start (s : string) : string :=
  match s with
  | EmptyString => EmptyString
  | String c s' => if is_space c then trim_start s' else s
  end.

Definition trim (s : string) : string :=
  String.rev (trim_start (String.rev (trim_start s))).

End JsString.

Import JsString.

(** ** helpers.js *)

(** [/^[A-Z0-9]{2,6}$/.test(coin)] *)
Definition is_symbol (coin : string) : bool :=
  repeat_to_end is_AZ09 2 6 coin.

(** [normalizeCoinIdentifier(coin)].  The argument is [None] when the
    caller passes nothing ([undefined]); [!coin] also holds for the empty
    string. *)
Definition normalizeCoinIdentifier (coin : option string) : string :=
  match coin with
  | None => ""
  | Some "" => ""
  | Some s =>
      if is_symbol s then s
      else strip_spaces (toLowerCase s)
  end.

(** The shape [^[A-Z0-9]{2,6}$] in words: two to six characters, each a
    capital letter or a digit. *)
Definition ticker_shape (s : string) : Prop :=
  (2 <= String.length s <= 6)%nat /\ all_chars is_AZ09 s = true.

(** ** JavaScript values, errors and results *)

#[warnings="-register-all"]
Inductive JsValue : Type :=
  | JUndefined
  | JNull
  | JBool (b : bool)
  | JNum (q : Q)
  | JStr (s : string)
  | JArr (items : list JsValue)
  | JObj (props : list (string * JsValue)).

(** An object literal or the query parameters of a request. *)
Abbreviation Params := (list (string * JsValue)).

(** What [if (v)], [!v] and [v || d] test. *)
Definition truthy (v : JsValue) : bool :=
  match v with
  | JUndefined | JNull => false
  | JBool b => b
  | JNum q => negb (Qeq_bool q 0)
  | JStr s => negb (String.eqb s "")
  | JArr _ | JObj _ => true
  end.

Definition js_or (a b : JsValue) : JsValue := if truthy a then a else b.

(** An error object: what [axios] rejects with ([response_status] is
    [error.response.status], [None] when [error.response] is absent), or
    a [TypeError] raised by the runtime. *)
Inductive JsError : Type :=
  | HttpError (response_status : option Z) (message : string)
  | TypeError (message : string).

Definition error_status (e : JsError) : option Z :=
  match e with
  | HttpError st _ => st
  | TypeError _ => None
  end.

Inductive Result (A : Type) : Type :=
  | Ok (a : A)
  | Throw (e : JsError).
Arguments Ok {A} a.
Arguments Throw {A} e.

Fixpoint own_prop (name : string) (props : Params) : JsValue :=
  match props with
  | [] => JUndefined
  | (k, v) :: rest => if String.eqb k name then v else own_prop name rest
  end.

(** [v.name] for a data property [name] that no prototype defines
    ([data], [limit], [categories]). *)
Definition get_prop (v : JsValue) (name : string) : Result JsValue :=
  match v with
  | JUndefined | JNull => Throw (TypeError "Cannot read properties")
  | JObj props => Ok (own_prop name props)
  | _ => Ok JUndefined
  end.

(** ** The world: configuration, memoised tier, cache and transport *)

Inductive Tier : Type := Paid | Free | Invalid | Unknown.

Record Request : Type := mkRequest {
  req_url : string;
  req_authorization : string;
  req_params : Params
}.

(** How one [axios.get] settles. *)
Inductive Outcome : Type :=
  | Resolved (status : Z) (data : JsValue)
  | Rejected (error : JsError).

(** [calls] is the history of the transport, newest invocation first.
    [ticks] counts the readings of [Date.now()] and [draws] the calls of
    the random mock generator. *)
Record World : Type := mkWorld {
  apiKey : option string;
  cache : gmap string JsValue;
  apiTier : option Tier;
  lastTierCheck : option Z;
  calls : list (Request * Outcome);
  ticks : nat;
  draws : nat
}.

(** What the adapter does not own: the HTTP client, the clock, the
    built-in serialisers and the random mock generator of
    [mock/data.js].  Each oracle is indexed by how often it was asked
    before, so that two calls may answer differently. *)
Record Env : Type := mkEnv {
  http_get : nat -> Request -> Outcome;
  date_now : nat -> Z;
  JSON_stringify : Params -> string;
  Number_toString : Q -> string;
  mock_getCoinsList : nat -> JsValue -> JsValue;
  mock_getCoinData : nat -> string -> JsValue;
  mock_getTopicData : nat -> string -> JsValue
}.

Definition set_apiTier (t : Tier) (w : World) : World :=
  mkWorld (apiKey w) (cache w) (Some t) (lastTierCheck w) (calls w) (ticks w) (draws w).

Definition set_lastTierCheck (now : Z) (w : World) : World :=
  mkWorld (apiKey w) (cache w) (apiTier w) (Some now) (calls w) (ticks w) (draws w).

Definition record_call (req : Request) (out : Outcome) (w : World) : World :=
  mkWorld (apiKey w) (cache w) (apiTier w) (lastTierCheck w)
          ((req, out) :: calls w) (ticks w) (draws w).

Definition tick (w : World) : World :=
  mkWorld (apiKey w) (cache w) (apiTier w) (lastTierCheck w) (calls w) (S (ticks w)) (draws w).

Definition draw (w : World) : World :=
  mkWorld (apiKey w) (cache w) (apiTier w) (lastTierCheck w) (calls w) (ticks w) (S (draws w)).

(** Modelled from the spec: the cache collaborator of [@intue/core],
    [get(key) -> JSON|absent] and [set(key, value)].  Expiry by TTL is
    no operation of the adapter; a statement about two requests says
    which entries the cache still holds at the second one. *)
Definition cache_get (key : string) (w : World) : option JsValue := cache w !! key.

Definition cache_set (key : string) (v : JsValue) (w : World) : World :=
  mkWorld (apiKey w) (<[key := v]> (cache w)) (apiTier w) (lastTierCheck w)
          (calls w) (ticks w) (draws w).

(** [if (cachedData)]: an absent entry reads as [undefined]. *)
Definition cached_truthy (key : string) (w : World) : option JsValue :=
  match cache_get key w with
  | Some v => if truthy v then Some v else None
  | None => None
  end.

(** [!this.apiKey] *)
Definition apiKey_missing (w : World) : bool :=
  match apiKey w with
  | None => true
  | Some k => String.eqb k ""
  end.

(** [`Bearer ${this.apiKey}`] *)
Definition bearer (w : World) : string :=
  "Bearer " ++ match apiKey w with Some k => k | None => "undefined" end.

Section Adapter.

Variable E : Env.

(** [await axios.get(url, {headers, params})] *)
Definition axios_get (req : Request) (w : World) : Outcome * World :=
  let out := http_get E (length (calls w)) req in
  (out, record_call req out w).

(** *** auth.js *)

Definition tierCheckInterval : Z := 24 * 60 * 60 * 1000.

Definition free_endpoints : list string :=
  [ "/public/topic/:topic/v1";
    "/public/coins/list/v1";
    "/public/categories/list/v1" ].

Definition probe_request (w : World) : Request :=
  mkRequest "https://lunarcrush.com/api4/public/coins/list/v2"
            (bearer w) [("limit", JNum 1)].

(** [this.apiTier && this.lastTierCheck &&
     (now - this.lastTierCheck < this.tierCheckInterval)] *)
Definition memo_fresh (now : Z) (w : World) : option Tier :=
  match apiTier w, lastTierCheck w with
  | Some t, Some l =>
      if negb (l =? 0) && (now - l <? tierCheckInterval) then Some t else None
  | _, _ => None
  end.

Definition tier_of_outcome (out : Outcome) : Tier :=
  match out with
  | Resolved status _ => if status =? 200 then Paid else Unknown
  | Rejected e =>
      match error_status e with
      | Some st =>
          if st =? 402 then Free
          else if st =? 401 then Invalid
          else Unknown
      | None => Unknown
      end
  end.

Definition detectApiTier (w : World) : Tier * World :=
  let now := date_now E (ticks w) in
  let w := tick w in
  match memo_fresh now w with
  | Some t => (t, w)
  | None =>
      if apiKey_missing w then (Invalid, set_apiTier Invalid w)
      else
        let '(out, w1) := axios_get (probe_request w) w in
        let t := tier_of_outcome out in
        (t, set_lastTierCheck now (set_apiTier t w1))
  end.

(** The regular expression that a template becomes:
    [freeEndpoint.replace(/:[^\/]+/g, '[^\/]+')] turns every colon
    followed by a run of characters other than [/] into the piece
    [[^/]+]; every other character of the fixed templates is a letter,
    a digit, [/] or [:], and matches itself. *)
Inductive Piece : Type :=
  | Lit (c : ascii)
  | NonSlashRun.

Definition is_slash (c : ascii) : bool := Ascii.eqb c "/"%char.

Definition starts_non_slash (s : string) : bool :=
  match s with
  | EmptyString => false
  | String c _ => negb (is_slash c)
  end.

Fixpoint template_pieces (in_param : bool) (s : string) : list Piece :=
  match s with
  | EmptyString => []
  | String c s' =>
      if in_param then
        if is_slash c then Lit c :: template_pieces false s'
        else template_pieces true s'
      else if Ascii.eqb c ":"%char && starts_non_slash s' then
        NonSlashRun :: template_pieces true s'
      else Lit c :: template_pieces false s'
  end.

(** [new RegExp(`^${pattern}$`).test(s)], by backtracking. *)
Fixpoint pieces_match (ps : list Piece) (s : string) : bool :=
  match ps with
  | [] => match s with EmptyString => true | _ => false end
  | Lit c :: rest =>
      match s with
      | String c' s' => Ascii.eqb c c' && pieces_match rest s'
      | EmptyString => false
      end
  | NonSlashRun :: rest =>
      (fix run (s : string) : bool :=
         match s with
         | String c s' =>
             negb (is_slash c) && (pieces_match rest s' || run s')
         | EmptyString => false
         end) s
  end.

Definition template_test (freeEndpoint endpoint : string) : bool :=
  pieces_match (template_pieces false freeEndpoint) endpoint.

Definition canAccessEndpoint (endpoint : string) (w : World) : bool * World :=
  let w1 := match apiTier w with
            | None => snd (detectApiTier w)
            | Some _ => w
            end in
  match apiTier w1 with
  | Some Paid => (true, w1)
  | Some Invalid | Some Unknown => (false, w1)
  | _ => (existsb (fun freeEndpoint => template_test freeEndpoint endpoint)
                  free_endpoints, w1)
  end.

(** *** index.js: the request pipeline *)

Definition baseUrl : string := "https://lunarcrush.com/api4".

(** [`${endpoint}_${JSON.stringify(params)}`] *)
Definition cacheKey (endpoint : string) (params : Params) : string :=
  endpoint ++ "_" ++ JSON_stringify E params.

Definition data_request (endpoint : string) (params : Params) (w : World) : Request :=
  mkRequest (baseUrl ++ endpoint) (bearer w) params.

(** [segments.slice(-2)[0]] *)
Definition second_last (segments : list string) : string :=
  match rev segments with
  | _ :: x :: _ => x
  | [x] => x
  | [] => ""
  end.

Definition _getMockData (endpoint : string) (params : Params) (w : World)
  : JsValue * World :=
  if includes "/coins/list" endpoint then
    (mock_getCoinsList E (draws w) (js_or (own_prop "limit" params) (JNum 50)), draw w)
  else if includes "/coins/" endpoint then
    (mock_getCoinData E (draws w) (second_last (split "/"%char endpoint)), draw w)
  else if includes "/topic/" endpoint then
    (mock_getTopicData E (draws w) (second_last (split "/"%char endpoint)), draw w)
  else (JArr [], w).

(** [{ data: ..., meta: { using_mock_data: true, original_endpoint } }] *)
Definition envelope (data : JsValue) (endpoint : string) : JsValue :=
  JObj [ ("data", data);
         ("meta", JObj [ ("using_mock_data", JBool true);
                         ("original_endpoint", JStr endpoint) ]) ].

Definition mock_envelope (endpoint : string) (params : Params) (w : World)
  : JsValue * World :=
  let '(data, w') := _getMockData endpoint params w in
  (envelope data endpoint, w').

(** An asynchronous method: it may change the world and either returns
    or throws; [None] only when the recursion budget is exhausted. *)
Definition Async (A : Type) : Type := World -> option (Result A * World).

Definition ret {A} (a : A) : Async A := fun w => Some (Ok a, w).

Definition bind {A B} (m : Async A) (k : A -> Async B) : Async B :=
  fun w =>
    match m w with
    | None => None
    | Some (Ok a, w') => k a w'
    | Some (Throw e, w') => Some (Throw e, w')
    end.

Definition lift {A} (r : Result A) : Async A := fun w => Some (r, w).

(** [try { return await m } catch (e) { handler }] *)
Definition try_catch {A} (m : Async A) (handler : JsError -> Async A) : Async A :=
  fun w =>
    match m w with
    | None => None
    | Some (Ok a, w') => Some (Ok a, w')
    | Some (Throw e, w') => handler e w'
    end.

(** [_getFallbackData], given the pipeline it re-enters. *)
Definition fallback_with (request : string -> Params -> Async JsValue)
           (endpoint : string) (params : Params) : Async JsValue :=
  let mock : Async JsValue :=
    fun w => let '(v, w') := mock_envelope endpoint params w in Some (Ok v, w') in
  if includes "/coins/list/v2" endpoint then
    try_catch (request "/public/coins/list/v1" params) (fun _ => mock)
  else mock.

Definition status_is (code : Z) (e : JsError) : bool :=
  match error_status e with
  | Some st => st =? code
  | None => false
  end.

(** The part of [_makeRequest] after a cache miss. *)
Definition request_after_miss (fallback : string -> Params -> Async JsValue)
           (endpoint : string) (params : Params) : Async JsValue :=
  fun w =>
    let '(canAccess, w1) := canAccessEndpoint endpoint w in
    if negb canAccess then fallback endpoint params w1
    else
      let '(out, w2) := axios_get (data_request endpoint params w1) w1 in
      match out with
      | Resolved _ data =>
          Some (Ok data, cache_set (cacheKey endpoint params) data w2)
      | Rejected error =>
          if status_is 402 error then fallback endpoint params w2
          else if status_is 429 error then fallback endpoint params w2
          else Some (Throw error, w2)
      end.

(** [_makeRequest] and [_getFallbackData] call each other; [fuel]
    bounds the depth of that recursion. *)
Fixpoint _makeRequest (fuel : nat) (endpoint : string) (params : Params)
  : Async JsValue :=
  match fuel with
  | O => fun _ => None
  | S fuel' =>
      fun w =>
        match cached_truthy (cacheKey endpoint params) w with
        | Some cachedData => Some (Ok cachedData, w)
        | None =>
            request_after_miss (fallback_with (_makeRequest fuel'))
                               endpoint params w
        end
  end.

Definition _getFallbackData (fuel : nat) : string -> Params -> Async JsValue :=
  fallback_with (_makeRequest fuel).

(** Two levels are all the recursion ever uses (see [fuel_two]). *)
Definition depth : nat := 2.

(** *** index.js: the public operations *)

Definition getCoinsList (limit : Z) : Async JsValue :=
  bind (_makeRequest depth "/public/coins/list/v2" [("limit", JNum (inject_Z limit))])
       (fun result => lift (get_prop result "data")).

Definition getCoinData (coin : option string) : Async JsValue :=
  let normalizedCoin := normalizeCoinIdentifier coin in
  bind (_makeRequest depth ("/public/coins/" ++ normalizedCoin ++ "/v1") [])
       (fun result => lift (get_prop result "data")).

Definition getTopicSentiment (topic : string) (days : JsValue) : Async JsValue :=
  bind (_makeRequest depth ("/public/topic/" ++ topic ++ "/v1") [])
       (fun result => lift (get_prop result "data")).

(** *** index.js: [getEcosystemCoins] *)

(** The own properties of the literal [categoryMap]. *)
Definition categoryMap : list (string * string) :=
  [ ("ai-agents", "ai"); ("defai", "defi"); ("solana", "solana");
    ("ethereum", "ethereum"); ("bitcoin", "bitcoin") ].

(** The properties that an object literal inherits from
    [Object.prototype]: a computed access [categoryMap[name]] finds a
    function (or, for [__proto__], the prototype object) there. *)
Definition object_prototype_names : list string :=
  [ "constructor"; "__defineGetter__"; "__defineSetter__"; "hasOwnProperty";
    "__lookupGetter__"; "__lookupSetter__"; "isPrototypeOf";
    "propertyIsEnumerable"; "toString"; "valueOf"; "__proto__";
    "toLocaleString" ].

Fixpoint assoc_string (k : string) (m : list (string * string)) : option string :=
  match m with
  | [] => None
  | (k', v) :: rest => if String.eqb k' k then Some v else assoc_string k rest
  end.

(** The value of [category]: a string, or the truthy non-string found
    on the prototype. *)
Inductive Category : Type :=
  | CatString (s : string)
  | CatInherited (name : string).

(** [categoryMap[ecosystem] || ecosystem]; the five own values are
    non-empty strings, hence truthy. *)
Definition category_of (ecosystem : string) : Category :=
  match assoc_string ecosystem categoryMap with
  | Some c => CatString c
  | None =>
      if existsb (String.eqb ecosystem) object_prototype_names
      then CatInherited ecosystem
      else CatString ecosystem
  end.

Definition split_trim (s : string) : list JsValue :=
  map (fun c => JStr (trim c)) (split ","%char s).

(** [Array.isArray(v) ? v : String(v).split(',').map(c => c.trim())] *)
Definition categories_of (v : JsValue) : list JsValue :=
  match v with
  | JArr items => items
  | JStr s => split_trim s
  | JNum q => split_trim (Number_toString E q)
  | JBool b => split_trim (if b then "true" else "false")
  | JObj _ => split_trim "[object Object]"
  | JNull => split_trim "null"
  | JUndefined => split_trim "undefined"
  end.

(** [c.toLowerCase()] *)
Definition call_toLowerCase (c : JsValue) : Result string :=
  match c with
  | JStr s => Ok (toLowerCase s)
  | _ => Throw (TypeError "toLowerCase is not a function")
  end.

Definition category_toLowerCase (category : Category) : Result string :=
  match category with
  | CatString s => Ok (toLowerCase s)
  | CatInherited _ => Throw (TypeError "category.toLowerCase is not a function")
  end.

(** [c.toLowerCase() === category.toLowerCase()], left operand first. *)
Definition same_category (category : Category) (c : JsValue) : Result bool :=
  match call_toLowerCase c with
  | Throw e => Throw e
  | Ok lc =>
      match category_toLowerCase category with
      | Throw e => Throw e
      | Ok lcat => Ok (String.eqb lc lcat)
      end
  end.

(** [Array.prototype.some] with a callback that may throw. *)
Fixpoint js_some (f : JsValue -> Result bool) (l : list JsValue) : Result bool :=
  match l with
  | [] => Ok false
  | x :: rest =>
      match f x with
      | Throw e => Throw e
      | Ok true => Ok true
      | Ok false => js_some f rest
      end
  end.

(** [Array.prototype.filter] with a callback that may throw. *)
Fixpoint js_filter (f : JsValue -> Result bool) (l : list JsValue)
  : Result (list JsValue) :=
  match l with
  | [] => Ok []
  | x :: rest =>
      match f x with
      | Throw e => Throw e
      | Ok keep =>
          match js_filter f rest with
          | Throw e => Throw e
          | Ok kept => Ok (if keep then x :: kept else kept)
          end
      end
  end.

(** [l.slice(0, limit)] for an integer [limit]: a negative end counts
    from the end of the array. *)
Definition js_slice0 {A} (limit : Z) (l : list A) : list A :=
  if limit <? 0
  then firstn (Z.to_nat (Z.max (Z.of_nat (length l) + limit) 0)) l
  else firstn (Z.to_nat limit) l.

(** The callback of the filter in [getEcosystemCoins]. *)
Definition coin_in_category (category : Category) (coin : JsValue) : Result bool :=
  match get_prop coin "categories" with
  | Throw e => Throw e
  | Ok cats =>
      if negb (truthy cats) then Ok false
      else js_some (same_category category) (categories_of cats)
  end.

Definition throw {A} (e : JsError) : Async A := fun w => Some (Throw e, w).

(** [allCoins.filter(...).slice(0, limit)] *)
Definition filter_coins (category : Category) (limit : Z) (allCoins : JsValue)
  : Result (list JsValue) :=
  match allCoins with
  | JArr coins =>
      match js_filter (coin_in_category category) coins with
      | Throw e => Throw e
      | Ok kept => Ok (js_slice0 limit kept)
      end
  | JUndefined | JNull => Throw (TypeError "Cannot read properties")
  | _ => Throw (TypeError "allCoins.filter is not a function")
  end.

Definition getEcosystemCoins (ecosystem : string) (limit : Z)
  : Async (list JsValue) :=
  let category := category_of ecosystem in
  try_catch
    (bind (getCoinsList 200)
          (fun allCoins => lift (filter_coins category limit allCoins)))
    (fun error => throw error).

End Adapter.

Arguments _makeRequest : simpl never.
Arguments fallback_with : simpl never.
Arguments request_after_miss : simpl never.
Arguments mock_envelope : simpl never.

(** ** index.js: the aggregates of [getSocialMetrics] *)

(** The three fields that the aggregates read from a time-series point;
    [None] for a field the point does not carry. *)
Record TimeSeriesPoint : Type := mkPoint {
  gs : option Q;
  sv : option Q;
  sc : option Q
}.

(** [x || d] for a number or [undefined]: zero is falsy. *)
Definition num_or (x : option Q) (d : Q) : Q :=
  match x with
  | Some q => if Qeq_bool q 0 then d else q
  | None => d
  end.

Definition sum_Q (l : list Q) : Q := fold_left Qplus l 0%Q.

Definition mean_Q (l : list Q) : Q :=
  (sum_Q l / inject_Z (Z.of_nat (length l)))%Q.

(** The argument is [None] when [!timeSeriesData] holds. *)
Definition _calculateAverageSentiment (timeSeriesData : option (list TimeSeriesPoint)) : Q :=
  match timeSeriesData with
  | None | Some [] => 0%Q
  | Some l => mean_Q (map (fun d => num_or (gs d) 0%Q) l)
  end.

Definition _calculateTotalSocialVolume (timeSeriesData : option (list TimeSeriesPoint)) : Q :=
  match timeSeriesData with
  | None | Some [] => 0%Q
  | Some l => fold_left (fun acc d => (acc + num_or (sv d) 0)%Q) l 0%Q
  end.

(** [const socialContributors = d.sc || 1] *)
Definition socialContributors (d : TimeSeriesPoint) : Q := num_or (sc d) 1%Q.

(** [socialVolume / socialContributors] *)
Definition engagement (d : TimeSeriesPoint) : Q :=
  (num_or (sv d) 0 / socialContributors d)%Q.

Definition _calculateAverageEngagement (timeSeriesData : option (list TimeSeriesPoint)) : Q :=
  match timeSeriesData with
  | None | Some [] => 0%Q
  | Some l => mean_Q (map engagement l)
  end.

(** ** What the specification says, in the terms of the model *)

Definition no_slash (x : string) : Prop :=
  all_chars (fun c => negb (is_slash c)) x = true.

(** The strings that a sequence of pieces denotes: a literal stands for
    itself, a run for any non-empty string without [/]. *)
Fixpoint denotes (ps : list Piece) (s : string) : Prop :=
  match ps with
  | [] => s = ""
  | Lit c :: rest => exists s', s = String c s' /\ denotes rest s'
  | NonSlashRun :: rest =>
      exists x s', s = x ++ s' /\ x <> "" /\ no_slash x /\ denotes rest s'
  end.

(** The instances of the three free-tier templates: the whole path is
    the template, with one non-empty [/]-free segment for [:topic]. *)
Definition free_path (endpoint : string) : Prop :=
  (exists topic, topic <> "" /\ no_slash topic /\
                 endpoint = "/public/topic/" ++ topic ++ "/v1") \/
  endpoint = "/public/coins/list/v1" \/
  endpoint = "/public/categories/list/v1".

(** A tier counts as computed within the last 24 hours when both memo
    fields are set (a timestamp of 0 reads as unset) and less than the
    interval has passed. *)
Definition computed_recently (now : Z) (w : World) : Prop :=
  exists t l, apiTier w = Some t /\ lastTierCheck w = Some l /\
              l <> 0 /\ now - l < 24 * 60 * 60 * 1000.

(** The last sentence of the contract of [detectTier] as the
    specification has it: the call leaves the returned tier memoised and
    the time of the call as the last check. *)
Definition updates_tier_and_timestamp (E : Env) (w : World) : Prop :=
  let now := date_now E (ticks w) in
  let '(t, w') := detectApiTier E w in
  apiTier w' = Some t /\ lastTierCheck w' = Some now.

(** The endpoint that [_getFallbackData] substitutes for a path that
    contains [/coins/list/v2]. *)
Definition free_variant : string := "/public/coins/list/v1".

(** The answer of [canAccessEndpoint] once the tier is known. *)
Definition answer_for (t : Tier) (endpoint : string) : bool :=
  match t with
  | Paid => true
  | Invalid | Unknown => false
  | Free => existsb (fun freeEndpoint => template_test freeEndpoint endpoint)
                    free_endpoints
  end.

(** "The request call fails": it throws, and returns no value. *)
Definition request_fails (E : Env) (endpoint : string) (params : Params)
           (w : World) : Prop :=
  exists err w', _makeRequest E depth endpoint params w = Some (Throw err, w').

(** "The request returns the envelope that records the endpoint." *)
Definition answers_with_envelope (E : Env) (endpoint : string) (params : Params)
           (w : World) : Prop :=
  exists data w',
    _makeRequest E depth endpoint params w = Some (Ok (envelope data endpoint), w').

(** The requests that a call of the pipeline for [endpoint] may send
    from the world [w]: the probe of the tier detector, the request for
    the endpoint, the request for its free variant. *)
Definition expected_request (endpoint : string) (params : Params) (w : World)
           (req : Request) : Prop :=
  req = probe_request w \/
  req = data_request endpoint params w \/
  req = data_request free_variant params w.

(** What one call of the pipeline may do to the transport and to the
    cache: it sends the requests [new]; it leaves the cache alone, or it
    stores the body of one successful response among [new], under the
    key of the endpoint that was fetched, and returns that body. *)
Definition pipeline_effect (E : Env) (endpoint : string) (params : Params)
           (w : World) (r : Result JsValue) (w' : World) : Prop :=
  apiKey w' = apiKey w /\
  exists new,
    calls w' = (new ++ calls w)%list /\
    Forall (fun c => expected_request endpoint params w (fst c)) new /\
    (cache w' = cache w \/
     exists e' st body,
       (e' = endpoint \/ e' = free_variant) /\
       r = Ok body /\
       In (data_request e' params w, Resolved st body) new /\
       cache w' = <[cacheKey E e' params := body]> (cache w)).

(** "Across two consecutive identical requests the transport is
    invoked at most once." *)
Definition at_most_one_transport_call (E : Env) (endpoint : string)
           (params : Params) (w : World) : Prop :=
  forall r1 w1 r2 w2,
    _makeRequest E depth endpoint params w = Some (r1, w1) ->
    _makeRequest E depth endpoint params w1 = Some (r2, w2) ->
    (length (calls w2) <= length (calls w) + 1)%nat.

(** "Whenever the cache holds a value under the key, the pipeline
    returns that value immediately." *)
Definition returns_cached_value (E : Env) (endpoint : string)
           (params : Params) (w : World) : Prop :=
  forall v, cache w !! cacheKey E endpoint params = Some v ->
            _makeRequest E depth endpoint params w = Some (Ok v, w).

(** "No fallback result is stored": a request that was denied access
    leaves the cache as it was. *)
Definition denied_request_stores_nothing (E : Env) (endpoint : string)
           (params : Params) (w : World) : Prop :=
  fst (canAccessEndpoint E endpoint w) = false ->
  forall r w', _makeRequest E depth endpoint params w = Some (r, w') ->
               cache w' = cache w.

(** The contribution of a point in the words of the specification:
    social volume divided by max(social contributors, 1), an absent
    count read as 0. *)
Definition engagement_by_max (d : TimeSeriesPoint) : Q :=
  (num_or (sv d) 0 / Qmax (match sc d with Some q => q | None => 0 end) 1)%Q.

(** A whole, non-negative number. *)
Definition is_count (q : Q) : Prop := exists n : nat, q = inject_Z (Z.of_nat n).

(** The alias table in words: a known alias gives its category, any
    other name is the category itself. *)
Definition alias_category (ecosystem : string) : string :=
  match assoc_string ecosystem categoryMap with
  | Some c => c
  | None => ecosystem
  end.

Definition strings_of (items : list JsValue) : list string :=
  flat_map (fun v => match v with JStr s => [s] | _ => [] end) items.

(** The category set of a coin: a native sequence of strings, or one
    comma-separated string split and trimmed; empty when the coin has
    no categories. *)
Definition category_set (coin : JsValue) : list string :=
  match coin with
  | JObj props =>
      match own_prop "categories" props with
      | JArr items => strings_of items
      | JStr s => if String.eqb s "" then [] else List.map trim (split ","%char s)
      | _ => []
      end
  | _ => []
  end.

(** Case-insensitive membership of the category in the set. *)
Definition in_category (category : string) (coin : JsValue) : bool :=
  existsb (fun c => String.eqb (toLowerCase c) (toLowerCase category))
          (category_set coin).

(** A coin record whose categories are absent, a sequence of strings or
    a string. *)
Definition coin_shape (coin : JsValue) : Prop :=
  exists props, coin = JObj props /\
    (own_prop "categories" props = JUndefined \/
     own_prop "categories" props = JNull \/
     (exists ss, own_prop "categories" props = JArr (List.map JStr ss)) \/
     (exists s, own_prop "categories" props = JStr s)).

Definition no_credential (w : World) : Prop :=
  apiKey w = None \/ apiKey w = Some "".

(** The verdict of the probe as the contract words it. *)
Inductive probe_verdict : Outcome -> Tier -> Prop :=
  | verdict_paid d : probe_verdict (Resolved 200 d) Paid
  | verdict_free m : probe_verdict (Rejected (HttpError (Some 402) m)) Free
  | verdict_invalid m : probe_verdict (Rejected (HttpError (Some 401) m)) Invalid
  | verdict_other_status st d :
      st <> 200 -> probe_verdict (Resolved st d) Unknown
  | verdict_other_error e :
      error_status e <> Some 402 -> error_status e <> Some 401 ->
      probe_verdict (Rejected e) Unknown.

(** ** Concrete environments and worlds for the examples *)

Module Demo.

Definition quote : string := String "034"%char "".

(** Prints the integral part; exact on the integers of the examples. *)
Definition number (q : Q) : string :=
  NilZero.string_of_int (Z.to_int (Qnum q / Zpos (Qden q))).

Definition value (v : JsValue) : string :=
  match v with
  | JNum q => number q
  | JStr s => quote ++ s ++ quote
  | JBool b => if b then "true" else "false"
  | _ => "null"
  end.

Fixpoint props (ps : Params) : string :=
  match ps with
  | [] => ""
  | (k, v) :: rest =>
      quote ++ k ++ quote ++ ":" ++ value v ++
      match rest with [] => "" | _ => "," ++ props rest end
  end.

(** Agrees with [JSON.stringify] on flat objects of integers, booleans
    and strings that need no escaping. *)
Definition stringify (ps : Params) : string := "{" ++ props ps ++ "}".

Definition env (net : nat -> Request -> Outcome) : Env :=
  mkEnv net
        (fun k => 1700000000000 + Z.of_nat k)
        stringify
        number
        (fun _ _ => JArr [])
        (fun _ symbol => JObj [("s", JStr symbol)])
        (fun _ topic => JObj [("topic", JStr topic)]).

Definition always (out : Outcome) : nat -> Request -> Outcome :=
  fun _ _ => out.

(** The outcomes of the first invocations, then [last]. *)
Definition script (outs : list Outcome) (last : Outcome)
  : nat -> Request -> Outcome :=
  fun n _ => nth n outs last.

Definition offline : Outcome := Rejected (HttpError None "Network Error").
Definition status (st : Z) : Outcome := Rejected (HttpError (Some st) "Request failed").

(** A new adapter: nothing cached, no tier detected. *)
Definition new_world (key : option string) : World :=
  mkWorld key ∅ None None [] 0 0.

(** An adapter whose tier was detected one hour before the clock of
    [env] starts. *)
Definition world_of_tier (key : option string) (t : Tier) : World :=
  mkWorld key ∅ (Some t) (Some (1700000000000 - 3600000)) [] 0 0.

(** The same, with one entry in the cache. *)
Definition world_caching (key : option string) (t : Tier)
           (k : string) (v : JsValue) : World :=
  mkWorld key {[ k := v ]} (Some t) (Some (1700000000000 - 3600000)) [] 0 0.

Definition coin (symbol : string) (categories : JsValue) : JsValue :=
  JObj [("s", JStr symbol); ("categories", categories)].

(** Six coins, exactly one of them in the category [solana]. *)
Definition six_coins : list JsValue :=
  [ coin "BTC" (JArr [JStr "bitcoin"; JStr "layer-1"]);
    coin "ETH" (JStr "ethereum, layer-1, defi");
    coin "SOL" (JArr [JStr "Solana"; JStr "layer-1"]);
    coin "FET" (JArr [JStr "ai"; JStr "defi"]);
    JObj [("s", JStr "OCEAN")];
    coin "RNDR" (JStr "ai,computing") ].

Definition six_coins_body : JsValue := JObj [("data", JArr six_coins)].

End Demo.

(** ** More of the sources: [periodToDays], [getTimeSeries] *)

Module Period.

(** [/\d/] *)
Definition is_digit (c : ascii) : bool := in_range 48 57 c.

(** [/[hdwmy]/] *)
Definition is_unit (c : ascii) : bool :=
  existsb (Ascii.eqb c) ["h"; "d"; "w"; "m"; "y"]%char.

(** The longest prefix of digits, and what follows it. *)
Fixpoint take_digits (s : string) : string * string :=
  match s with
  | EmptyString => (EmptyString, EmptyString)
  | String c s' =>
      if is_digit c
      then let '(ds, rest) := take_digits s' in (String c ds, rest)
      else (EmptyString, s)
  end.

(** [period.match(/^(\d+)([hdwmy])$/)]: the two groups.  A unit is no
    digit, so the first group can only be the longest prefix of
    digits. *)
Definition period_match (period : string) : option (string * ascii) :=
  match take_digits period with
  | (String c ds, String u EmptyString) =>
      if is_unit u then Some (String c ds, u) else None
  | _ => None
  end.

Fixpoint digits_value (acc : Z) (s : string) : Z :=
  match s with
  | EmptyString => acc
  | String c s' => digits_value (10 * acc + (Z.of_N (code c) - 48)) s'
  end.

(** [parseInt(value, 10)] on a string of digits. *)
Definition parseInt (value : string) : Z := digits_value 0 value.

(** [periodToDays(period)], with the [switch] on the unit in the order
    of the source. *)
Definition periodToDays (period : string) : Q :=
  match period_match period with
  | None => 7%Q
  | Some (value, unit) =>
      let numValue := inject_Z (parseInt value) in
      if Ascii.eqb unit "h" then (numValue / 24)%Q
      else if Ascii.eqb unit "d" then numValue
      else if Ascii.eqb unit "w" then (numValue * 7)%Q
      else if Ascii.eqb unit "m" then (numValue * 30)%Q
      else if Ascii.eqb unit "y" then (numValue * 365)%Q
      else 7%Q
  end.

(** The days that one unit stands for. *)
Definition days_per (unit : ascii) : Q :=
  if Ascii.eqb unit "h" then (1 # 24)%Q
  else if Ascii.eqb unit "d" then 1%Q
  else if Ascii.eqb unit "w" then 7%Q
  else if Ascii.eqb unit "m" then 30%Q
  else 365%Q.

(** One or more digits followed by exactly one unit. *)
Definition period_shape (s : string) : Prop :=
  exists ds u, s = ds ++ String u "" /\ ds <> "" /\
               all_chars is_digit ds = true /\ is_unit u = true.

End Period.

(** [getTimeSeries(coin, interval, limit)] *)
Definition getTimeSeries (E : Env) (coin : option string) (interval : string)
           (limit : Z) : Async JsValue :=
  let normalizedCoin := normalizeCoinIdentifier coin in
  bind (_makeRequest E depth
          ("/public/coins/" ++ normalizedCoin ++ "/time-series/v2")
          [("interval", JStr interval); ("limit", JNum (inject_Z limit))])
       (fun result => lift (get_prop result "data")).

(** The world in which a request that misses the cache enters
    [_getFallbackData]: after the access check when access is denied,
    after the GET when it is rejected with status 402 or 429; [None]
    when the request does not fall back. *)
Definition fallback_entry (E : Env) (endpoint : string) (params : Params)
           (w : World) : option World :=
  match cached_truthy (cacheKey E endpoint params) w with
  | Some _ => None
  | None =>
      let '(canAccess, w1) := canAccessEndpoint E endpoint w in
      if negb canAccess then Some w1
      else
        let '(out, w2) := axios_get E (data_request endpoint params w1) w1 in
        match out with
        | Resolved _ _ => None
        | Rejected error =>
            if status_is 402 error || status_is 429 error then Some w2 else None
        end
  end.

(** An adapter that has no credential and has detected nothing else. *)
Definition keyless (w : World) : Prop :=
  apiKey_missing w = true /\ (apiTier w = None \/ apiTier w = Some Invalid).

(** * Properties *)

(** ** helpers.js: [normalizeCoinIdentifier] *)

Example normalize_btc : normalizeCoinIdentifier (Some "BTC") = "BTC".
Proof. reflexivity. Qed.

Example normalize_name :
  normalizeCoinIdentifier (Some "Ocean Protocol") = "oceanprotocol".
Proof. reflexivity. Qed.

Example normalize_long_upper :
  normalizeCoinIdentifier (Some "BITCOIN") = "bitcoin".
Proof. reflexivity. Qed.

Lemma repeat_to_end_spec cls s : forall lo hi,
  repeat_to_end cls lo hi s = true <->
  (lo <= String.length s <= hi)%nat /\ all_chars cls s = true.
Proof.
  induction s as [|c s IH]; intros lo hi; simpl.
  - destruct lo; simpl.
    + split; [intros _; split; [lia | reflexivity] | reflexivity].
    + split; [discriminate | intros [H _]; lia].
  - destruct hi as [|hi].
    + split; [discriminate | lia].
    + rewrite andb_true_iff, IH, andb_true_iff.
      split.
      * intros (Hc & Hlen & Hs). repeat split; auto; lia.
      * intros (Hlen & Hc & Hs). repeat split; auto; lia.
Qed.

Lemma is_symbol_shape s : is_symbol s = true <-> ticker_shape s.
Proof. apply repeat_to_end_spec. Qed.

Lemma lower_char_not_upper c : is_upper (lower_char c) = false.
Proof.
  destruct c as [[] [] [] [] [] [] [] []]; reflexivity.
Qed.

Lemma lower_char_keeps_space c : is_space (lower_char c) = is_space c.
Proof.
  destruct c as [[] [] [] [] [] [] [] []]; reflexivity.
Qed.

Lemma toLowerCase_no_upper s :
  all_chars (fun c => negb (is_upper c)) (toLowerCase s) = true.
Proof.
  induction s as [|c s IH]; simpl; [reflexivity|].
  now rewrite lower_char_not_upper, IH.
Qed.

Lemma strip_spaces_no_space s :
  all_chars (fun c => negb (is_space c)) (strip_spaces s) = true.
Proof.
  induction s as [|c s IH]; simpl; [reflexivity|].
  destruct (is_space c) eqn:Hc; simpl; [assumption|].
  now rewrite Hc, IH.
Qed.

Lemma strip_spaces_keeps P s :
  all_chars P s = true -> all_chars P (strip_spaces s) = true.
Proof.
  induction s as [|c s IH]; simpl; [reflexivity|].
  rewrite andb_true_iff. intros [Hc Hs].
  destruct (is_space c); simpl; [auto|]. rewrite Hc. auto.
Qed.

Lemma strip_lower_as_list s :
  list_ascii_of_string (strip_spaces (toLowerCase s)) =
  List.filter (fun c => negb (is_space c))
              (List.map lower_char (list_ascii_of_string s)).
Proof.
  induction s as [|c s IH]; simpl; [reflexivity|].
  destruct (is_space (lower_char c)); simpl; [assumption|].
  now rewrite IH.
Qed.

(** C6. [normalizeCoinIdentifier] maps absent and empty input to the
    empty string, is the identity on every input of the shape
    [^[A-Z0-9]{2,6}$], and on every other non-empty string returns the
    lower-cased input with its white space removed: a string without
    white space and without upper-case characters. *)
Theorem normalizeCoinIdentifier_contract :
  normalizeCoinIdentifier None = "" /\
  normalizeCoinIdentifier (Some "") = "" /\
  (forall s, ticker_shape s -> normalizeCoinIdentifier (Some s) = s) /\
  (forall s, s <> "" -> ~ ticker_shape s ->
     let r := normalizeCoinIdentifier (Some s) in
     list_ascii_of_string r =
       List.filter (fun c => negb (is_space c))
                   (List.map lower_char (list_ascii_of_string s)) /\
     all_chars (fun c => negb (is_space c)) r = true /\
     all_chars (fun c => negb (is_upper c)) r = true).
Proof.
  split; [reflexivity|]. split; [reflexivity|]. split.
  - intros s Hs. apply is_symbol_shape in Hs.
    unfold normalizeCoinIdentifier. destruct s; [reflexivity|]. now rewrite Hs.
  - intros s Hne Hs r.
    assert (Hr : r = strip_spaces (toLowerCase s)).
    { subst r. unfold normalizeCoinIdentifier.
      destruct s as [|c s]; [congruence|].
      destruct (is_symbol (String c s)) eqn:Hsym; [|reflexivity].
      exfalso. apply Hs. now apply is_symbol_shape. }
    rewrite Hr. split; [apply strip_lower_as_list|]. split.
    + apply strip_spaces_no_space.
    + apply strip_spaces_keeps, toLowerCase_no_upper.
Qed.

Lemma normalizeCoinIdentifier_contract_witness :
  normalizeCoinIdentifier (Some "SOL") = "SOL" /\
  all_chars (fun c => negb (is_space c))
            (normalizeCoinIdentifier (Some "Render Token")) = true.
Proof.
  destruct normalizeCoinIdentifier_contract as (_ & _ & Hid & Hother).
  split.
  - apply Hid. unfold ticker_shape. simpl. split; [lia | reflexivity].
  - apply (Hother "Render Token").
    + discriminate.
    + unfold ticker_shape. simpl. lia.
Defined.

(** ** auth.js: templates and [canAccessEndpoint] *)

Lemma all_chars_app P a b :
  all_chars P (a ++ b) = all_chars P a && all_chars P b.
Proof.
  induction a as [|c a IH]; simpl; [reflexivity|].
  now rewrite IH, andb_assoc.
Qed.

Lemma run_denotes (k : string -> bool) (K : string -> Prop) :
  (forall s, k s = true <-> K s) ->
  forall s,
    (fix run (s : string) : bool :=
       match s with
       | String c s' => negb (is_slash c) && (k s' || run s')
       | EmptyString => false
       end) s = true <->
    exists x s', s = x ++ s' /\ x <> "" /\ no_slash x /\ K s'.
Proof.
  intros Hk. induction s as [|c s IH].
  - split; [discriminate|].
    intros (x & s' & Heq & Hne & _). destruct x; [congruence | discriminate].
  - rewrite andb_true_iff, orb_true_iff, Hk, IH. split.
    + intros [Hc [Hs | (x & s' & -> & Hne & Hx & Hs')]].
      * exists (String c ""), s. repeat split; auto; try discriminate.
        unfold no_slash. simpl. now rewrite Hc.
      * exists (String c x), s'. repeat split; auto; try discriminate.
        unfold no_slash in *. simpl. now rewrite Hc, Hx.
    + intros (x & s' & Heq & Hne & Hx & Hs').
      destruct x as [|c' x]; [congruence|]. simpl in Heq.
      injection Heq as <- ->. unfold no_slash in Hx. simpl in Hx.
      apply andb_true_iff in Hx as [Hc Hx]. split; [assumption|].
      destruct x as [|c'' x].
      * left. assumption.
      * right. exists (String c'' x), s'. repeat split; auto; discriminate.
Qed.

Lemma pieces_match_denotes ps : forall s,
  pieces_match ps s = true <-> denotes ps s.
Proof.
  induction ps as [|[c|] rest IH]; intros s.
  - destruct s; simpl; split; congruence.
  - destruct s as [|c' s]; simpl.
    + split; [discriminate | intros (s' & H & _); discriminate].
    + rewrite andb_true_iff, IH. split.
      * intros [Hc Hs]. apply Ascii.eqb_eq in Hc as ->. eauto.
      * intros (s' & Heq & Hs). injection Heq as -> ->.
        split; [apply Ascii.eqb_refl | assumption].
  - simpl. apply run_denotes. exact IH.
Qed.

Lemma denotes_literal l ps s :
  denotes (List.map Lit (list_ascii_of_string l) ++ ps) s <->
  exists s', s = l ++ s' /\ denotes ps s'.
Proof.
  revert s. induction l as [|c l IH]; intros s; simpl.
  - split; [eauto | intros (s' & -> & H); exact H].
  - split.
    + intros (s1 & -> & H). apply IH in H as (s' & -> & H). eauto.
    + intros (s' & -> & H). eexists. split; [reflexivity|]. apply IH. eauto.
Qed.

Lemma str_app_nil_r (s : string) : s ++ "" = s.
Proof.
  induction s as [|c s IH]; [reflexivity|].
  change (String c (s ++ "") = String c s). now f_equal.
Qed.

Lemma str_app_assoc (a b c : string) : (a ++ b) ++ c = a ++ (b ++ c).
Proof.
  induction a as [|x a IH]; [reflexivity|].
  change (String x ((a ++ b) ++ c) = String x (a ++ (b ++ c))). now f_equal.
Qed.

Lemma template_topic endpoint :
  template_test "/public/topic/:topic/v1" endpoint = true <->
  exists topic, topic <> "" /\ no_slash topic /\
                endpoint = "/public/topic/" ++ topic ++ "/v1".
Proof.
  unfold template_test. rewrite pieces_match_denotes.
  change (template_pieces false "/public/topic/:topic/v1")
    with (List.map Lit (list_ascii_of_string "/public/topic/")
            ++ NonSlashRun :: List.map Lit (list_ascii_of_string "/v1") ++ [])%list.
  rewrite denotes_literal. split.
  - intros (s1 & -> & x & s2 & -> & Hne & Hx & H).
    apply denotes_literal in H as (s3 & -> & ->). exists x. auto.
  - intros (x & Hne & Hx & ->). eexists. split; [reflexivity|].
    exists x, "/v1". repeat split; auto.
    apply denotes_literal. exists "". split; reflexivity.
Qed.

Lemma template_literal t endpoint :
  template_pieces false t = (List.map Lit (list_ascii_of_string t) ++ [])%list ->
  template_test t endpoint = true <-> endpoint = t.
Proof.
  intros Ht. unfold template_test. rewrite pieces_match_denotes, Ht, denotes_literal.
  split.
  - intros (s' & -> & ->). apply str_app_nil_r.
  - intros ->. exists "". split; [symmetry; apply str_app_nil_r | reflexivity].
Qed.

Lemma free_endpoints_match endpoint :
  existsb (fun freeEndpoint => template_test freeEndpoint endpoint) free_endpoints = true
  <-> free_path endpoint.
Proof.
  unfold free_endpoints, free_path. simpl.
  rewrite !orb_true_iff, template_topic.
  rewrite !template_literal by reflexivity.
  intuition discriminate.
Qed.

Example no_trailing_path :
  template_test "/public/topic/:topic/v1" "/public/topic/btc/v1/extra" = false.
Proof. reflexivity. Qed.

Example no_leading_path :
  template_test "/public/coins/list/v1" "/x/public/coins/list/v1" = false.
Proof. reflexivity. Qed.

Example no_empty_segment :
  template_test "/public/topic/:topic/v1" "/public/topic//v1" = false.
Proof. reflexivity. Qed.

Example no_nested_segment :
  template_test "/public/topic/:topic/v1" "/public/topic/a/b/v1" = false.
Proof. reflexivity. Qed.

Example topic_segment_any_text :
  template_test "/public/topic/:topic/v1" "/public/topic/AI agents!/v1" = true.
Proof. reflexivity. Qed.

Lemma detectApiTier_sets_tier E w :
  apiTier (snd (detectApiTier E w)) <> None.
Proof.
  unfold detectApiTier, memo_fresh. simpl.
  destruct (apiTier w) as [t|] eqn:Ht; simpl.
  - destruct (lastTierCheck w) as [l|]; simpl.
    + destruct (negb (l =? 0) && _); simpl; [congruence|].
      destruct (apiKey_missing _); simpl; discriminate.
    + destruct (apiKey_missing _); simpl; discriminate.
  - destruct (apiKey_missing _); simpl; discriminate.
Qed.

Lemma detectApiTier_returns_memo E w :
  apiTier (snd (detectApiTier E w)) = Some (fst (detectApiTier E w)).
Proof.
  unfold detectApiTier. cbv zeta.
  destruct (memo_fresh (date_now E (ticks w)) (tick w)) as [t|] eqn:Hmemo.
  - revert Hmemo. unfold memo_fresh. simpl.
    destruct (apiTier w) as [t'|]; [|discriminate].
    destruct (lastTierCheck w) as [l|]; [|discriminate].
    destruct (negb (l =? 0) && _); [congruence | discriminate].
  - destruct (apiKey_missing (tick w)); [reflexivity|].
    destruct (axios_get E (probe_request (tick w)) (tick w)); reflexivity.
Qed.

(** C4. [canAccessEndpoint] answers by the tier in force and writes
    nothing of its own: with a tier memoised it leaves the adapter as
    it is and the tier in force is the memoised one; with none, it runs
    the detector once, the adapter is as the detector left it and the
    tier in force is the one the detector returned, which is then the
    memoised one.  By that tier: [paid] gives true for every path,
    [invalid] and [unknown] give false for every path, and [free] gives
    true exactly for the instances of the three free-tier templates, the
    whole path matched with one non-empty run of characters other than
    [/] in the place of a variable segment. *)
Theorem canAccessEndpoint_by_tier E endpoint w :
  let '(answer, w') := canAccessEndpoint E endpoint w in
  exists t,
    match apiTier w with
    | Some t0 => t = t0 /\ w' = w
    | None => (t, w') = detectApiTier E w
    end /\
    apiTier w' = Some t /\
    (t = Paid -> answer = true) /\
    (t = Invalid \/ t = Unknown -> answer = false) /\
    (t = Free -> (answer = true <-> free_path endpoint)).
Proof.
  unfold canAccessEndpoint.
  set (w1 := match apiTier w with None => snd (detectApiTier E w) | Some _ => w end).
  assert (Hset : exists t, apiTier w1 = Some t /\
                           match apiTier w with
                           | Some t0 => t = t0 /\ w1 = w
                           | None => (t, w1) = detectApiTier E w
                           end).
  { subst w1. destruct (apiTier w) as [t|] eqn:Ht; [eauto|].
    exists (fst (detectApiTier E w)). split.
    - apply detectApiTier_returns_memo.
    - now destruct (detectApiTier E w). }
  destruct Hset as (t & Ht & Hpre). rewrite Ht.
  destruct t; cbv beta iota;
    (eexists; split; [exact Hpre|]; split; [exact Ht|]);
    (split; [congruence|]); (split; [intros [?|?]; congruence|]);
    try congruence.
  intros _. apply free_endpoints_match.
Qed.

(** ** auth.js: [detectApiTier] *)

Lemma memo_fresh_recent now w t :
  memo_fresh now w = Some t <->
  exists l, apiTier w = Some t /\ lastTierCheck w = Some l /\
            l <> 0 /\ now - l < 24 * 60 * 60 * 1000.
Proof.
  unfold memo_fresh, tierCheckInterval.
  destruct (apiTier w) as [t'|], (lastTierCheck w) as [l|];
    try (split; [discriminate | intros (l' & H1 & H2 & _); congruence]).
  destruct (Z.eqb_spec l 0) as [->|Hl]; simpl.
  - split; [discriminate|]. intros (l' & _ & [= <-] & Hne & _). congruence.
  - destruct (Z.ltb_spec (now - l) (24 * 60 * 60 * 1000)) as [Hlt|Hge].
    + split.
      * intros [= ->]. eauto.
      * intros (l' & [= ->] & _). reflexivity.
    + split; [discriminate|]. intros (l' & _ & [= <-] & _ & Hlt). lia.
Qed.

Lemma memo_fresh_none now w :
  memo_fresh now w = None <-> ~ computed_recently now w.
Proof.
  unfold computed_recently. split.
  - intros Hnone (t & l & H). 
    assert (memo_fresh now w = Some t) by (apply memo_fresh_recent; eauto).
    congruence.
  - intros Hnot. destruct (memo_fresh now w) as [t|] eqn:Hm; [|reflexivity].
    exfalso. apply Hnot. apply memo_fresh_recent in Hm as (l & H). eauto.
Qed.

Lemma apiKey_missing_spec w : apiKey_missing w = true <-> no_credential w.
Proof.
  unfold apiKey_missing, no_credential. destruct (apiKey w) as [k|].
  - rewrite String.eqb_eq. split; [intros ->; auto | intros [H|[= ->]]; congruence].
  - intuition.
Qed.

Lemma tier_of_outcome_verdict out : probe_verdict out (tier_of_outcome out).
Proof.
  destruct out as [st d | e]; simpl.
  - destruct (Z.eqb_spec st 200) as [->|H]; now constructor.
  - destruct e as [[st|] m | m]; simpl; try (constructor; simpl; congruence).
    destruct (Z.eqb_spec st 402) as [->|H402]; [constructor|].
    destruct (Z.eqb_spec st 401) as [->|H401]; [constructor|].
    constructor; simpl; congruence.
Qed.

Lemma probe_verdict_functional out t1 t2 :
  probe_verdict out t1 -> probe_verdict out t2 -> t1 = t2.
Proof.
  intros H1 H2; inversion H1; subst; inversion H2; subst;
    simpl in *; congruence.
Qed.

(** C3, as the code has it.  With the time [now] read at the start of
    the call:
    - a tier computed within the last 24 hours is returned, with no
      probe and with both memo fields left as they were;
    - otherwise, with no credential, the result is [invalid], no request
      is sent, the tier is memoised and the timestamp is left as it was;
    - otherwise exactly one probe GET is sent, its outcome decides the
      tier as the contract says, and both the tier and the timestamp
      are updated. *)
Theorem detectApiTier_contract E w :
  let now := date_now E (ticks w) in
  let '(t, w') := detectApiTier E w in
  (computed_recently now w ->
     apiTier w = Some t /\ calls w' = calls w /\
     apiTier w' = apiTier w /\ lastTierCheck w' = lastTierCheck w) /\
  (~ computed_recently now w -> no_credential w ->
     t = Invalid /\ calls w' = calls w /\
     apiTier w' = Some Invalid /\ lastTierCheck w' = lastTierCheck w) /\
  (~ computed_recently now w -> ~ no_credential w ->
     let out := http_get E (length (calls w)) (probe_request w) in
     calls w' = (probe_request w, out) :: calls w /\
     probe_verdict out t /\
     apiTier w' = Some t /\ lastTierCheck w' = Some now).
Proof.
  unfold detectApiTier. simpl.
  change (memo_fresh (date_now E (ticks w)) (tick w))
    with (memo_fresh (date_now E (ticks w)) w).
  change (apiKey_missing (tick w)) with (apiKey_missing w).
  destruct (memo_fresh (date_now E (ticks w)) w) as [t|] eqn:Hm.
  - pose proof Hm as Hrecent. apply memo_fresh_recent in Hrecent as (l & Ht & Hl & Hne & Hlt).
    assert (Hr : computed_recently (date_now E (ticks w)) w)
      by (exists t, l; auto).
    split; [intros _; auto|]. split; intros Hnot; contradiction.
  - apply memo_fresh_none in Hm.
    destruct (apiKey_missing w) eqn:Hk; simpl.
    + apply apiKey_missing_spec in Hk.
      split; [intros Hr; contradiction|].
      split; [intros _ _; auto | intros _ Hnc; contradiction].
    + assert (Hnc : ~ no_credential w).
      { intros H. apply apiKey_missing_spec in H. congruence. }
      split; [intros Hr; contradiction|].
      split; [intros _ H; contradiction|].
      intros _ _. repeat split. apply tier_of_outcome_verdict.
Qed.

(** The three branches on concrete worlds. *)
Lemma detectApiTier_contract_witness :
  fst (detectApiTier (Demo.env (Demo.always (Demo.status 402)))
                     (Demo.world_of_tier (Some "key") Paid)) = Paid /\
  fst (detectApiTier (Demo.env (Demo.always (Demo.status 402)))
                     (Demo.new_world None)) = Invalid /\
  fst (detectApiTier (Demo.env (Demo.always (Demo.status 402)))
                     (Demo.new_world (Some "key"))) = Free.
Proof.
  split; [|split].
  - pose proof (detectApiTier_contract
                  (Demo.env (Demo.always (Demo.status 402)))
                  (Demo.world_of_tier (Some "key") Paid)) as H.
    cbv zeta in H.
    destruct (detectApiTier _ _) as [t w'] eqn:Hd.
    destruct H as (Hrecent & _ & _).
    destruct Hrecent as (Ht & _).
    + exists Paid, (1700000000000 - 3600000). simpl. repeat split; lia.
    + simpl in *. congruence.
  - pose proof (detectApiTier_contract
                  (Demo.env (Demo.always (Demo.status 402)))
                  (Demo.new_world None)) as H.
    cbv zeta in H.
    destruct (detectApiTier _ _) as [t w'] eqn:Hd.
    destruct H as (_ & Hnokey & _).
    destruct Hnokey as (Ht & _).
    + intros (t0 & l & Habs & _). discriminate Habs.
    + left. reflexivity.
    + exact Ht.
  - pose proof (detectApiTier_contract
                  (Demo.env (Demo.always (Demo.status 402)))
                  (Demo.new_world (Some "key"))) as H.
    cbv zeta in H.
    destruct (detectApiTier _ _) as [t w'] eqn:Hd.
    destruct H as (_ & _ & Hprobe).
    destruct Hprobe as (_ & Hv & _).
    + intros (t0 & l & Habs & _). discriminate Habs.
    + intros [Habs|Habs]; discriminate Habs.
    + simpl in Hv. inversion Hv; subst; simpl in *; congruence.
Defined.

(** C3 as stated fails in its last sentence: with no credential the
    tier is memoised but the call returns before the timestamp is
    written; and a tier that is still fresh is returned with the old
    timestamp left in place. *)
Lemma detectApiTier_no_credential_keeps_timestamp :
  let E := Demo.env (Demo.always Demo.offline) in
  let w := Demo.new_world None in
  let w1 := Demo.world_of_tier (Some "key") Paid in
  fst (detectApiTier E w) = Invalid /\
  lastTierCheck (snd (detectApiTier E w)) = None /\
  ~ updates_tier_and_timestamp E w /\
  lastTierCheck (snd (detectApiTier E w1)) = lastTierCheck w1 /\
  ~ updates_tier_and_timestamp E w1.
Proof.
  split; [reflexivity|]. split; [reflexivity|]. split; [|split; [reflexivity|]].
  - unfold updates_tier_and_timestamp. vm_compute. intros [_ H]. discriminate H.
  - unfold updates_tier_and_timestamp. vm_compute. intros [_ H]. discriminate H.
Qed.

(** ** index.js: the request pipeline *)

Section Pipeline.

Variable E : Env.

Lemma free_variant_is_final : includes "/coins/list/v2" free_variant = false.
Proof. reflexivity. Qed.

(** What [detectApiTier] leaves alone, and the one call it may add. *)
Lemma detectApiTier_frame w :
  let w' := snd (detectApiTier E w) in
  apiKey w' = apiKey w /\ cache w' = cache w /\ draws w' = draws w /\
  (calls w' = calls w \/
   calls w' = (probe_request w,
               http_get E (length (calls w)) (probe_request w)) :: calls w).
Proof.
  unfold detectApiTier. simpl.
  destruct (memo_fresh _ _); simpl; [auto|].
  destruct (apiKey_missing _); simpl; auto.
Qed.

Lemma canAccessEndpoint_detected endpoint w t :
  apiTier w = Some t ->
  canAccessEndpoint E endpoint w = (answer_for t endpoint, w).
Proof.
  intros Ht. unfold canAccessEndpoint. rewrite Ht. cbv zeta. rewrite Ht.
  now destruct t.
Qed.

Lemma canAccessEndpoint_frame endpoint w :
  let w1 := snd (canAccessEndpoint E endpoint w) in
  apiKey w1 = apiKey w /\ cache w1 = cache w /\ draws w1 = draws w /\
  (exists t, apiTier w1 = Some t /\
             fst (canAccessEndpoint E endpoint w) = answer_for t endpoint) /\
  (calls w1 = calls w \/
   calls w1 = (probe_request w,
               http_get E (length (calls w)) (probe_request w)) :: calls w).
Proof.
  destruct (apiTier w) as [t|] eqn:Ht.
  - rewrite (canAccessEndpoint_detected _ _ _ Ht). simpl. eauto 10.
  - unfold canAccessEndpoint. rewrite Ht.
    pose proof (detectApiTier_frame w) as (Hk & Hc & Hd & Hcalls).
    pose proof (detectApiTier_sets_tier E w) as Hset.
    destruct (apiTier (snd (detectApiTier E w))) as [t|] eqn:Ht'; [|congruence].
    destruct t; simpl; repeat split; eauto.
Qed.

Lemma mock_envelope_frame endpoint params w :
  let w' := snd (mock_envelope E endpoint params w) in
  apiKey w' = apiKey w /\ cache w' = cache w /\ calls w' = calls w /\
  apiTier w' = apiTier w /\
  exists data, fst (mock_envelope E endpoint params w) = envelope data endpoint.
Proof.
  unfold mock_envelope, _getMockData.
  destruct (includes "/coins/list" endpoint); simpl; [eauto 10|].
  destruct (includes "/coins/" endpoint); simpl; [eauto 10|].
  destruct (includes "/topic/" endpoint); simpl; eauto 10.
Qed.

Lemma makeRequest_unfold n endpoint params w :
  _makeRequest E (S n) endpoint params w =
  match cached_truthy (cacheKey E endpoint params) w with
  | Some cachedData => Some (Ok cachedData, w)
  | None => request_after_miss E (fallback_with E (_makeRequest E n))
                               endpoint params w
  end.
Proof. reflexivity. Qed.

Lemma request_after_miss_ext f g endpoint params w :
  (forall w', f endpoint params w' = g endpoint params w') ->
  request_after_miss E f endpoint params w =
  request_after_miss E g endpoint params w.
Proof.
  intros Hfg. unfold request_after_miss.
  destruct (canAccessEndpoint E endpoint w) as [answer w1].
  destruct (negb answer); [apply Hfg|].
  destruct (axios_get E _ w1) as [out w2].
  destruct out as [st d|e]; [reflexivity|].
  destruct (status_is 402 e); [apply Hfg|].
  destruct (status_is 429 e); [apply Hfg | reflexivity].
Qed.

Lemma fallback_final request endpoint params w :
  includes "/coins/list/v2" endpoint = false ->
  fallback_with E request endpoint params w =
  Some (Ok (fst (mock_envelope E endpoint params w)),
        snd (mock_envelope E endpoint params w)).
Proof.
  intros H. unfold fallback_with. rewrite H.
  now destruct (mock_envelope E endpoint params w).
Qed.

(** The free variant never re-enters the pipeline: one level is all it
    uses. *)
Lemma free_variant_fuel n params w :
  _makeRequest E (S n) free_variant params w =
  _makeRequest E 1 free_variant params w.
Proof.
  rewrite !makeRequest_unfold.
  destruct (cached_truthy _ w); [reflexivity|].
  apply request_after_miss_ext. intros w'.
  now rewrite !fallback_final by apply free_variant_is_final.
Qed.

Lemma fallback_fuel n endpoint params w :
  fallback_with E (_makeRequest E (S n)) endpoint params w =
  fallback_with E (_makeRequest E 1) endpoint params w.
Proof.
  unfold fallback_with.
  destruct (includes "/coins/list/v2" endpoint); [|reflexivity].
  unfold try_catch. fold free_variant. now rewrite free_variant_fuel.
Qed.

(** Two levels of recursion are enough for every request. *)
Lemma fuel_two n endpoint params w :
  _makeRequest E (S (S n)) endpoint params w =
  _makeRequest E depth endpoint params w.
Proof.
  unfold depth. rewrite !makeRequest_unfold.
  destruct (cached_truthy _ w); [reflexivity|].
  apply request_after_miss_ext. intros w'. apply fallback_fuel.
Qed.

End Pipeline.

Section Requests.

Variable E : Env.

Lemma cached_truthy_cache key w w' :
  cache w' = cache w -> cached_truthy key w' = cached_truthy key w.
Proof. unfold cached_truthy, cache_get. now intros ->. Qed.

Lemma cached_truthy_some key w v :
  cached_truthy key w = Some v <-> cache w !! key = Some v /\ truthy v = true.
Proof.
  unfold cached_truthy, cache_get. destruct (cache w !! key) as [c|].
  - destruct (truthy c) eqn:Hc; split.
    + intros [= ->]. auto.
    + intros [[= ->] _]. reflexivity.
    + discriminate.
    + intros [[= ->] H]. congruence.
  - split; [discriminate | intros [H _]; discriminate].
Qed.

(** The free variant under a tier that denies everything. *)
Lemma free_variant_denied n params w t :
  apiTier w = Some t -> answer_for t free_variant = false ->
  _makeRequest E (S n) free_variant params w =
  match cached_truthy (cacheKey E free_variant params) w with
  | Some c => Some (Ok c, w)
  | None => Some (Ok (fst (mock_envelope E free_variant params w)),
                  snd (mock_envelope E free_variant params w))
  end.
Proof.
  intros Ht Hdeny. rewrite makeRequest_unfold.
  destruct (cached_truthy _ w); [reflexivity|].
  unfold request_after_miss.
  rewrite (canAccessEndpoint_detected E _ _ _ Ht), Hdeny. simpl.
  apply fallback_final, free_variant_is_final.
Qed.

(** C1, as the code has it.  On a cache miss under the tier [invalid]
    or [unknown] the request does not fail: without sending any
    request for data and without writing to the cache it returns the
    fallback, which is the mock envelope of the endpoint, or, for a
    path with a free variant, what the cache holds for that variant
    and else the mock envelope of the variant. *)
Theorem denied_request_falls_back n endpoint params w :
  cached_truthy (cacheKey E endpoint params) w = None ->
  apiTier (snd (canAccessEndpoint E endpoint w)) = Some Invalid \/
  apiTier (snd (canAccessEndpoint E endpoint w)) = Some Unknown ->
  let w1 := snd (canAccessEndpoint E endpoint w) in
  exists v w',
    _makeRequest E (S (S n)) endpoint params w = Some (Ok v, w') /\
    calls w' = calls w1 /\ cache w' = cache w /\
    (includes "/coins/list/v2" endpoint = false ->
       (v, w') = mock_envelope E endpoint params w1) /\
    (includes "/coins/list/v2" endpoint = true ->
       match cached_truthy (cacheKey E free_variant params) w with
       | Some c => v = c /\ w' = w1
       | None => (v, w') = mock_envelope E free_variant params w1
       end).
Proof.
  intros Hmiss.
  pose proof (canAccessEndpoint_frame E endpoint w) as (Hk & Hc & Hd & (t & Ht & Hans) & Hcalls).
  rewrite makeRequest_unfold, Hmiss. unfold request_after_miss.
  destruct (canAccessEndpoint E endpoint w) as [answer w1] eqn:Hcan.
  simpl snd in *; simpl fst in *. intros Htier.
  assert (Hdeny : forall e, answer_for t e = false).
  { intros e. destruct Htier as [H|H];
      rewrite Ht in H; injection H as ->; reflexivity. }
  rewrite Hans, Hdeny. simpl.
  destruct (includes "/coins/list/v2" endpoint) eqn:Hinc.
  - unfold fallback_with. rewrite Hinc. unfold try_catch. fold free_variant.
    rewrite (free_variant_denied n params w1 t Ht (Hdeny _)).
    rewrite (cached_truthy_cache _ w w1 Hc).
    destruct (cached_truthy (cacheKey E free_variant params) w) as [c|].
    + exists c, w1. repeat split; auto; discriminate.
    + pose proof (mock_envelope_frame E free_variant params w1)
        as (_ & Hc' & Hcalls' & _).
      destruct (mock_envelope E free_variant params w1) as [v w'].
      exists v, w'. simpl in *. repeat split; try congruence.
  - rewrite (fallback_final E _ _ _ _ Hinc).
    pose proof (mock_envelope_frame E endpoint params w1)
      as (_ & Hc' & Hcalls' & _).
    destruct (mock_envelope E endpoint params w1) as [v w'].
    exists v, w'. simpl in *. repeat split; try congruence.
Qed.

Lemma status_is_spec code e :
  status_is code e = true <-> error_status e = Some code.
Proof.
  unfold status_is. destruct (error_status e) as [st|].
  - rewrite Z.eqb_eq. split; congruence.
  - split; discriminate.
Qed.

Lemma status_is_false code e :
  status_is code e = false <-> error_status e <> Some code.
Proof.
  rewrite <- status_is_spec. destruct (status_is code e); split; congruence.
Qed.

(** The free variant always settles within one level. *)
Lemma free_variant_total params w :
  exists r w', _makeRequest E 1 free_variant params w = Some (r, w').
Proof.
  rewrite makeRequest_unfold.
  destruct (cached_truthy _ w); [eauto|].
  unfold request_after_miss.
  destruct (canAccessEndpoint E free_variant w) as [answer w1].
  destruct (negb answer).
  { rewrite fallback_final by apply free_variant_is_final. eauto. }
  destruct (axios_get E _ w1) as [[st d|e] w2]; [eauto|].
  destruct (status_is 402 e).
  { rewrite fallback_final by apply free_variant_is_final. eauto. }
  destruct (status_is 429 e); [|eauto].
  rewrite fallback_final by apply free_variant_is_final. eauto.
Qed.

(** [_getFallbackData] never throws. *)
Lemma fallback_returns n endpoint params w :
  exists v w',
    fallback_with E (_makeRequest E (S n)) endpoint params w = Some (Ok v, w').
Proof.
  rewrite fallback_fuel. unfold fallback_with, try_catch.
  destruct (includes "/coins/list/v2" endpoint).
  - fold free_variant.
    destruct (free_variant_total params w) as ([v|e] & w' & ->); [eauto|].
    destruct (mock_envelope E endpoint params w'). eauto.
  - destruct (mock_envelope E endpoint params w). eauto.
Qed.

(** C2, as the code has it.  A request that misses the cache, is
    granted access and whose GET is rejected with [err] raises exactly
    [err] if and only if the status of [err] is neither 402 nor 429.
    On 402 and 429 it returns the fallback: the mock envelope that
    records the endpoint when the endpoint has no free variant;
    otherwise the answer of the free-variant request when that one
    returns, and the mock envelope that records the original endpoint
    only when the free-variant request throws. *)
Theorem rejected_request_handling n endpoint params w err :
  let w1 := snd (canAccessEndpoint E endpoint w) in
  let req := data_request endpoint params w1 in
  let w2 := record_call req (Rejected err) w1 in
  let r := _makeRequest E (S (S n)) endpoint params w in
  cached_truthy (cacheKey E endpoint params) w = None ->
  fst (canAccessEndpoint E endpoint w) = true ->
  http_get E (length (calls w1)) req = Rejected err ->
  ((exists e' w', r = Some (Throw e', w')) <->
     error_status err <> Some 402 /\ error_status err <> Some 429) /\
  (error_status err <> Some 402 -> error_status err <> Some 429 ->
     r = Some (Throw err, w2)) /\
  (error_status err = Some 402 \/ error_status err = Some 429 ->
     (includes "/coins/list/v2" endpoint = false ->
        r = Some (Ok (fst (mock_envelope E endpoint params w2)),
                  snd (mock_envelope E endpoint params w2))) /\
     (includes "/coins/list/v2" endpoint = true ->
        match _makeRequest E 1 free_variant params w2 with
        | Some (Ok v, w3) => r = Some (Ok v, w3)
        | Some (Throw _, w3) =>
            r = Some (Ok (fst (mock_envelope E endpoint params w3)),
                      snd (mock_envelope E endpoint params w3))
        | None => False
        end)).
Proof.
  intros w1 req w2 r Hmiss Hgrant Hout.
  assert (Hr : r = if status_is 402 err || status_is 429 err
                   then fallback_with E (_makeRequest E (S n)) endpoint params w2
                   else Some (Throw err, w2)).
  { subst r. rewrite makeRequest_unfold, Hmiss. unfold request_after_miss.
    subst w2 req w1.
    destruct (canAccessEndpoint E endpoint w) as [answer w1] eqn:Hcan.
    simpl in Hgrant. subst answer. simpl negb. cbv iota.
    unfold axios_get. simpl snd in *. rewrite Hout.
    destruct (status_is 402 err); [reflexivity|].
    destruct (status_is 429 err); reflexivity. }
  assert (Hraise : error_status err <> Some 402 ->
                   error_status err <> Some 429 -> r = Some (Throw err, w2)).
  { intros H402 H429. apply status_is_false in H402, H429.
    now rewrite Hr, H402, H429. }
  assert (Hfall : error_status err = Some 402 \/ error_status err = Some 429 ->
                  r = fallback_with E (_makeRequest E (S n)) endpoint params w2).
  { intros H. rewrite Hr.
    destruct H as [H|H]; apply status_is_spec in H; rewrite H;
      [reflexivity | now rewrite orb_true_r]. }
  split; [|split].
  - split.
    + intros (e' & w' & Hthrow).
      destruct (status_is 402 err) eqn:H402.
      { destruct (fallback_returns n endpoint params w2) as (v & w'' & Hf).
        rewrite Hfall in Hthrow by (left; now apply status_is_spec). congruence. }
      destruct (status_is 429 err) eqn:H429.
      { destruct (fallback_returns n endpoint params w2) as (v & w'' & Hf).
        rewrite Hfall in Hthrow by (right; now apply status_is_spec). congruence. }
      split; now apply status_is_false.
    + intros [H402 H429]. exists err, w2. auto.
  - exact Hraise.
  - intros Hst. rewrite (Hfall Hst), fallback_fuel. split; intros Hinc.
    + apply fallback_final, Hinc.
    + unfold fallback_with, try_catch. rewrite Hinc. fold free_variant.
      destruct (free_variant_total params w2) as ([v|e] & w3 & ->); [reflexivity|].
      now destruct (mock_envelope E endpoint params w3).
Qed.

End Requests.

Lemma denied_request_falls_back_witness :
  exists v w',
    _makeRequest (Demo.env (Demo.always Demo.offline)) 2
                 "/public/coins/btc/v1" [] (Demo.new_world None)
    = Some (Ok v, w') /\ calls w' = [].
Proof.
  destruct (denied_request_falls_back
              (Demo.env (Demo.always Demo.offline)) 0
              "/public/coins/btc/v1" [] (Demo.new_world None))
    as (v & w' & Hreq & Hcalls & _).
  - reflexivity.
  - left. reflexivity.
  - exists v, w'. split; [exact Hreq | exact Hcalls].
Defined.

(** C1 as stated fails: without a credential the tier is [invalid], and
    the request returns the mock envelope instead of failing. *)
Lemma denied_request_does_not_fail :
  let E := Demo.env (Demo.always Demo.offline) in
  let w := Demo.new_world None in
  let endpoint := "/public/coins/btc/v1" in
  cached_truthy (cacheKey E endpoint []) w = None /\
  apiTier (snd (canAccessEndpoint E endpoint w)) = Some Invalid /\
  _makeRequest E depth endpoint [] w
    = Some (Ok (envelope (JObj [("s", JStr "btc")]) endpoint),
            draw (set_apiTier Invalid (tick w))) /\
  ~ request_fails E endpoint [] w.
Proof.
  split; [reflexivity|]. split; [reflexivity|].
  assert (H : _makeRequest (Demo.env (Demo.always Demo.offline)) depth
                "/public/coins/btc/v1" [] (Demo.new_world None)
              = Some (Ok (envelope (JObj [("s", JStr "btc")]) "/public/coins/btc/v1"),
                      draw (set_apiTier Invalid (tick (Demo.new_world None)))))
    by reflexivity.
  split; [exact H|].
  intros (err & w' & Hfail). cbv zeta in Hfail. rewrite H in Hfail. discriminate Hfail.
Qed.

Lemma rejected_request_handling_witness :
  exists data w',
    _makeRequest (Demo.env (Demo.always (Demo.status 429))) 2
                 "/public/topic/bitcoin/v1" []
                 (Demo.world_of_tier (Some "key") Paid)
    = Some (Ok (envelope data "/public/topic/bitcoin/v1"), w').
Proof.
  destruct (rejected_request_handling
              (Demo.env (Demo.always (Demo.status 429))) 0
              "/public/topic/bitcoin/v1" []
              (Demo.world_of_tier (Some "key") Paid)
              (HttpError (Some 429) "Request failed"))
    as (_ & _ & Hfall); try reflexivity.
  destruct Hfall as [Hplain _]; [right; reflexivity|].
  rewrite Hplain by reflexivity.
  eexists. eexists. reflexivity.
Defined.

(** C2 as stated fails in its last part.  A rate-limited request for
    the paid coin list is answered by the free variant: when that
    request succeeds the caller receives its body, not an envelope; and
    when it is rate-limited as well, the envelope that comes back
    records the free variant, not the endpoint asked for. *)
Lemma rate_limited_list_returns_free_variant :
  let body := JObj [("data", JArr [JObj [("s", JStr "BTC")]])] in
  let E := Demo.env (Demo.script [Demo.status 429] (Resolved 200 body)) in
  let E' := Demo.env (Demo.always (Demo.status 429)) in
  let w := Demo.world_of_tier (Some "key") Paid in
  let endpoint := "/public/coins/list/v2" in
  let params := [("limit", JNum 50)] in
  cached_truthy (cacheKey E endpoint params) w = None /\
  canAccessEndpoint E endpoint w = (true, w) /\
  http_get E 0 (data_request endpoint params w) = Demo.status 429 /\
  (exists w', _makeRequest E depth endpoint params w = Some (Ok body, w')) /\
  ~ answers_with_envelope E endpoint params w /\
  (exists w', _makeRequest E' depth endpoint params w
              = Some (Ok (envelope (JArr []) free_variant), w')) /\
  ~ answers_with_envelope E' endpoint params w.
Proof.
  cbv zeta.
  split; [reflexivity|]. split; [reflexivity|]. split; [reflexivity|].
  match goal with
  | |- (exists w', ?run = _) /\ _ /\ (exists w'', ?run' = _) /\ _ =>
      let res := eval vm_compute in run in
      let res' := eval vm_compute in run' in
      assert (H : run = res) by (vm_compute; reflexivity);
      assert (H' : run' = res') by (vm_compute; reflexivity)
  end.
  split; [eexists; exact H|]. split.
  { intros (data & w' & Henv). rewrite H in Henv. discriminate Henv. }
  split; [eexists; exact H'|].
  intros (data & w' & Henv). rewrite H' in Henv. discriminate Henv.
Qed.

(** When the free variant is rate-limited as well, the envelope that
    comes back records the free variant, not the endpoint asked for. *)
Example rate_limited_twice_records_free_variant :
  let E := Demo.env (Demo.always (Demo.status 429)) in
  let w := Demo.world_of_tier (Some "key") Paid in
  exists w',
    _makeRequest E depth "/public/coins/list/v2" [("limit", JNum 50)] w
    = Some (Ok (envelope (JArr []) "/public/coins/list/v1"), w').
Proof. eexists. vm_compute. reflexivity. Qed.

Section Effects.

Variable E : Env.

Lemma requests_same_key endpoint params w w' :
  apiKey w' = apiKey w ->
  probe_request w' = probe_request w /\
  data_request endpoint params w' = data_request endpoint params w.
Proof.
  intros H. unfold probe_request, data_request, bearer. now rewrite H.
Qed.

Lemma expected_request_same_key endpoint params w w' req :
  apiKey w' = apiKey w ->
  expected_request endpoint params w' req -> expected_request endpoint params w req.
Proof.
  intros Hk. unfold expected_request.
  destruct (requests_same_key endpoint params w w' Hk) as [-> ->].
  destruct (requests_same_key free_variant params w w' Hk) as [_ ->].
  auto.
Qed.

(** An effect of the pipeline from a later world [wx], reached from
    [w] by sending [pre] and nothing else, is an effect from [w]. *)
Lemma pipeline_effect_after e' endpoint params w wx pre r w' :
  e' = endpoint \/ e' = free_variant ->
  apiKey wx = apiKey w -> cache wx = cache w ->
  calls wx = (pre ++ calls w)%list ->
  Forall (fun c => expected_request endpoint params w (fst c)) pre ->
  pipeline_effect E e' params wx r w' ->
  pipeline_effect E endpoint params w r w'.
Proof.
  intros He' Hk Hc Hcalls Hpre (Hk' & new & Hnew & Hall & Hcache).
  split; [congruence|].
  exists (new ++ pre)%list. split; [|split].
  - rewrite Hnew, Hcalls. now rewrite <- List.app_assoc.
  - apply Forall_app. split; [|assumption].
    eapply Forall_impl; [exact Hall|]. intros [req out] Hreq. simpl in *.
    apply (expected_request_same_key endpoint params w wx req Hk).
    unfold expected_request in *.
    destruct He' as [->| ->]; intuition.
  - destruct Hcache as [Hsame | (e'' & st & body & He'' & Hr & Hin & Hins)].
    + left. congruence.
    + right. exists e'', st, body. repeat split; auto.
      * destruct He' as [->| ->]; intuition.
      * apply in_or_app. left.
        now destruct (requests_same_key e'' params w wx Hk) as [_ <-].
      * now rewrite Hins, Hc.
Qed.

Lemma pipeline_effect_none endpoint params w r w' :
  apiKey w' = apiKey w -> calls w' = calls w -> cache w' = cache w ->
  pipeline_effect E endpoint params w r w'.
Proof.
  intros Hk Hcalls Hc. split; [assumption|].
  exists []. repeat split; auto.
Qed.

Lemma canAccessEndpoint_prefix endpoint params w :
  let w1 := snd (canAccessEndpoint E endpoint w) in
  apiKey w1 = apiKey w /\ cache w1 = cache w /\
  exists pre, calls w1 = (pre ++ calls w)%list /\
              (length pre <= 1)%nat /\
              Forall (fun c => expected_request endpoint params w (fst c)) pre.
Proof.
  destruct (canAccessEndpoint_frame E endpoint w) as (Hk & Hc & _ & _ & Hcalls).
  split; [assumption|]. split; [assumption|].
  destruct Hcalls as [H|H]; rewrite H.
  - exists []. simpl. repeat split; auto.
  - eexists [_]. simpl. repeat split; auto.
    constructor; [|constructor]. left. reflexivity.
Qed.

Lemma fallback_effect n endpoint params w r w' :
  (forall e p w0 r0 w0',
      _makeRequest E n e p w0 = Some (r0, w0') -> pipeline_effect E e p w0 r0 w0') ->
  fallback_with E (_makeRequest E n) endpoint params w = Some (r, w') ->
  pipeline_effect E endpoint params w r w'.
Proof.
  intros IH. unfold fallback_with, try_catch.
  destruct (includes "/coins/list/v2" endpoint).
  - fold free_variant.
    destruct (_makeRequest E n free_variant params w) as [[[a|err] w3]|] eqn:Hreq;
      [| |discriminate].
    + intros [= <- <-]. apply IH in Hreq.
      apply (pipeline_effect_after free_variant endpoint params w w [] (Ok a) w3);
        auto.
    + apply IH in Hreq. destruct Hreq as (Hk & new & Hnew & Hall & Hcache).
      pose proof (mock_envelope_frame E endpoint params w3)
        as (Hk' & Hc' & Hcalls' & _).
      destruct (mock_envelope E endpoint params w3) as [v w4]. simpl in *.
      intros [= <- <-]. split; [congruence|].
      exists new. split; [congruence|]. split.
      * eapply Forall_impl; [exact Hall|]. intros [req out].
        unfold expected_request. simpl. intuition.
      * left. destruct Hcache as [H | (e' & st & body & _ & Habs & _)];
          [congruence | discriminate].
  - pose proof (mock_envelope_frame E endpoint params w)
      as (Hk' & Hc' & Hcalls' & _).
    destruct (mock_envelope E endpoint params w) as [v w4]. simpl in *.
    intros [= <- <-]. now apply pipeline_effect_none.
Qed.

(** Every call of the pipeline sends only the expected requests and
    writes to the cache nothing but the body of a successful
    response. *)
Lemma makeRequest_effect n : forall endpoint params w r w',
  _makeRequest E n endpoint params w = Some (r, w') ->
  pipeline_effect E endpoint params w r w'.
Proof.
  induction n as [|n IH]; intros endpoint params w r w'; [discriminate|].
  rewrite makeRequest_unfold.
  destruct (cached_truthy _ w) as [c|].
  { intros [= <- <-]. now apply pipeline_effect_none. }
  unfold request_after_miss.
  destruct (canAccessEndpoint_prefix endpoint params w)
    as (Hk & Hc & pre & Hpre & _ & Hall).
  destruct (canAccessEndpoint E endpoint w) as [answer w1]. simpl in *.
  destruct (negb answer).
  { intros Hf. apply (fallback_effect n _ _ _ _ _ IH) in Hf.
    apply (pipeline_effect_after endpoint endpoint params w w1 pre r w'); auto. }
  unfold axios_get.
  set (req := data_request endpoint params w1).
  set (out := http_get E (length (calls w1)) req).
  assert (Hreq : req = data_request endpoint params w)
    by apply (requests_same_key endpoint params w w1 Hk).
  assert (Hall2 : Forall (fun c => expected_request endpoint params w (fst c))
                         ((req, out) :: pre)).
  { constructor; [|assumption]. right. left. exact Hreq. }
  assert (Hthrough : forall r0 w0,
             pipeline_effect E endpoint params (record_call req out w1) r0 w0 ->
             pipeline_effect E endpoint params w r0 w0).
  { intros r0 w0.
    apply (pipeline_effect_after endpoint endpoint params w
             (record_call req out w1) ((req, out) :: pre)); auto.
    simpl. now rewrite Hpre. }
  destruct out as [st d|err] eqn:Hout.
  - intros [= <- <-]. split; [exact Hk|].
    exists ((req, Resolved st d) :: pre). simpl. split; [now rewrite Hpre|].
    split; [exact Hall2|]. right.
    exists endpoint, st, d. repeat split; auto.
    + left. now rewrite Hreq.
    + now rewrite Hc.
  - destruct (status_is 402 err).
    { intros Hf. apply Hthrough. exact (fallback_effect n _ _ _ _ _ IH Hf). }
    destruct (status_is 429 err).
    { intros Hf. apply Hthrough. exact (fallback_effect n _ _ _ _ _ IH Hf). }
    intros [= <- <-]. apply Hthrough. now apply pipeline_effect_none.
Qed.

(** With two levels of recursion every request settles: it returns or
    it throws. *)
Lemma makeRequest_total n endpoint params w :
  exists r w', _makeRequest E (S (S n)) endpoint params w = Some (r, w').
Proof.
  rewrite makeRequest_unfold.
  destruct (cached_truthy _ w); [eauto|].
  unfold request_after_miss.
  destruct (canAccessEndpoint E endpoint w) as [answer w1].
  destruct (negb answer).
  { destruct (fallback_returns E n endpoint params w1) as (v & w' & ->). eauto. }
  destruct (axios_get E _ w1) as [[st d|err] w2]; [eauto|].
  destruct (status_is 402 err).
  { destruct (fallback_returns E n endpoint params w2) as (v & w' & ->). eauto. }
  destruct (status_is 429 err); [|eauto].
  destruct (fallback_returns E n endpoint params w2) as (v & w' & ->). eauto.
Qed.

(** C10, as the code has it.  Whatever a call of the pipeline writes
    to the cache is the body of a successful response received during
    that call, stored under the key of the endpoint that was fetched
    (the endpoint asked for, or its free variant when the fallback
    substituted it) and returned as the answer.  Hence a call that
    throws, or whose answer is no such body (the mock envelope),
    leaves the cache unchanged, and after it an identical request that
    had missed the cache misses again and runs the pipeline again. *)
Theorem cache_holds_only_response_bodies n endpoint params w :
  exists r w' new,
    _makeRequest E (S (S n)) endpoint params w = Some (r, w') /\
    calls w' = (new ++ calls w)%list /\
    (cache w' = cache w \/
     exists e' st body,
       (e' = endpoint \/ e' = free_variant) /\ r = Ok body /\
       In (data_request e' params w, Resolved st body) new /\
       cache w' = <[cacheKey E e' params := body]> (cache w)) /\
    ((forall err, r = Throw err -> cache w' = cache w) /\
     (forall v, r = Ok v ->
                (forall req st, ~ In (req, Resolved st v) new) ->
                cache w' = cache w)) /\
    (cache w' = cache w ->
     cached_truthy (cacheKey E endpoint params) w = None ->
     forall m, _makeRequest E (S m) endpoint params w' =
               request_after_miss E (fallback_with E (_makeRequest E m))
                                  endpoint params w').
Proof.
  destruct (makeRequest_total n endpoint params w) as (r & w' & Hreq).
  pose proof (makeRequest_effect _ _ _ _ _ _ Hreq)
    as (_ & new & Hnew & _ & Hcache).
  exists r, w', new.
  split; [exact Hreq|]. split; [exact Hnew|]. split; [exact Hcache|].
  split; [split|].
  - intros err ->.
    destruct Hcache as [H | (e' & st & body & _ & Habs & _)];
      [exact H | discriminate].
  - intros v -> Hnone.
    destruct Hcache as [H | (e' & st & body & _ & [= ->] & Hin & _)];
      [exact H|]. exfalso. exact (Hnone _ _ Hin).
  - intros Hsame Hmiss m. rewrite makeRequest_unfold.
    now rewrite (cached_truthy_cache _ w w' Hsame), Hmiss.
Qed.

(** C5, as the code has it.  The key is the path, an underscore and
    the serialised parameters; a truthy value held under the key is
    returned at once and the world stays as it was (no tier check, no
    request); and when a request is answered by a successful GET with
    a truthy body, the identical request that follows is answered from
    the cache without any use of the transport. *)
Theorem cache_hit_short_circuits n endpoint params w :
  cacheKey E endpoint params = endpoint ++ "_" ++ JSON_stringify E params /\
  (forall v, cache w !! cacheKey E endpoint params = Some v ->
             truthy v = true ->
             _makeRequest E (S n) endpoint params w = Some (Ok v, w)) /\
  (forall st d,
      let w1 := snd (canAccessEndpoint E endpoint w) in
      let req := data_request endpoint params w1 in
      let w2 := cache_set (cacheKey E endpoint params) d
                          (record_call req (Resolved st d) w1) in
      cached_truthy (cacheKey E endpoint params) w = None ->
      fst (canAccessEndpoint E endpoint w) = true ->
      http_get E (length (calls w1)) req = Resolved st d ->
      truthy d = true ->
      _makeRequest E (S n) endpoint params w = Some (Ok d, w2) /\
      _makeRequest E (S n) endpoint params w2 = Some (Ok d, w2) /\
      calls w2 = (req, Resolved st d) :: calls w1).
Proof.
  split; [reflexivity|]. split.
  - intros v Hv Ht. rewrite makeRequest_unfold.
    assert (H : cached_truthy (cacheKey E endpoint params) w = Some v)
      by now apply cached_truthy_some.
    now rewrite H.
  - intros st d w1 req w2 Hmiss Hgrant Hout Ht.
    assert (Hfirst : _makeRequest E (S n) endpoint params w = Some (Ok d, w2)).
    { rewrite makeRequest_unfold, Hmiss. unfold request_after_miss.
      subst w2 req w1.
      destruct (canAccessEndpoint E endpoint w) as [answer w1].
      simpl in *. subst answer. simpl. unfold axios_get. now rewrite Hout. }
    split; [exact Hfirst|]. split; [|reflexivity].
    rewrite makeRequest_unfold.
    assert (H : cached_truthy (cacheKey E endpoint params) w2 = Some d).
    { apply cached_truthy_some. split; [|exact Ht].
      subst w2. unfold cache_set. simpl. apply lookup_insert_eq. }
    now rewrite H.
Qed.

(** C9. [getTopicSentiment] behaves the same for any two values of
    [days]: the same answer, the same effect on the world and hence
    the same requests; and every request it sends, apart from the
    probe of the tier detector, carries no query parameter. *)
Theorem getTopicSentiment_ignores_days topic days1 days2 w :
  getTopicSentiment E topic days1 w = getTopicSentiment E topic days2 w /\
  exists r w' new,
    getTopicSentiment E topic days1 w = Some (r, w') /\
    calls w' = (new ++ calls w)%list /\
    Forall (fun c => fst c = probe_request w \/
                     (req_params (fst c) = [] /\
                      (req_url (fst c)
                         = baseUrl ++ "/public/topic/" ++ topic ++ "/v1" \/
                       req_url (fst c) = baseUrl ++ free_variant)))
           new.
Proof.
  split; [reflexivity|].
  unfold getTopicSentiment, bind, lift.
  destruct (makeRequest_total 0 ("/public/topic/" ++ topic ++ "/v1") [] w)
    as (r0 & w1 & Hreq).
  change (_makeRequest E 2) with (_makeRequest E depth) in Hreq.
  rewrite Hreq.
  apply makeRequest_effect in Hreq.
  destruct Hreq as (_ & new & Hnew & Hall & _).
  assert (Hsent :
            Forall (fun c => fst c = probe_request w \/
                     (req_params (fst c) = [] /\
                      (req_url (fst c)
                         = baseUrl ++ "/public/topic/" ++ topic ++ "/v1" \/
                       req_url (fst c) = baseUrl ++ free_variant)))
                   new).
  { eapply Forall_impl; [exact Hall|].
    intros [req out] [->|[->| ->]]; simpl; auto. }
  destruct r0 as [v|err]; eauto 10.
Qed.

End Effects.

Lemma cache_holds_only_response_bodies_witness :
  let E := Demo.env (Demo.always (Demo.status 429)) in
  let w := Demo.world_of_tier (Some "key") Paid in
  let endpoint := "/public/topic/bitcoin/v1" in
  exists r w',
    _makeRequest E 2 endpoint [] w = Some (r, w') /\
    (cache w' = cache w \/ exists body, r = Ok body /\ cache w' <> cache w).
Proof.
  cbv zeta.
  destruct (cache_holds_only_response_bodies
              (Demo.env (Demo.always (Demo.status 429))) 0
              "/public/topic/bitcoin/v1" []
              (Demo.world_of_tier (Some "key") Paid))
    as (r & w' & new & Hrun & _ & Hcache & _).
  exists r, w'. split; [exact Hrun|].
  destruct Hcache as [Hsame|_]; [left; exact Hsame|].
  left. vm_compute in Hrun. injection Hrun as _ <-. reflexivity.
Defined.

(** C10 as stated fails for the fallback that substitutes the free
    variant: on the free tier the paid coin list is denied, the free
    list is fetched instead, and its body, the result of the fallback,
    is stored in the cache. *)
Lemma denied_list_request_stores_free_variant :
  let body := JObj [("data", JArr [JObj [("s", JStr "BTC")]])] in
  let E := Demo.env (Demo.always (Resolved 200 body)) in
  let w := Demo.world_of_tier (Some "key") Free in
  let endpoint := "/public/coins/list/v2" in
  let params := [("limit", JNum 50)] in
  cached_truthy (cacheKey E endpoint params) w = None /\
  fst (canAccessEndpoint E endpoint w) = false /\
  (exists w', _makeRequest E depth endpoint params w = Some (Ok body, w') /\
              cache w' !! cacheKey E free_variant params = Some body) /\
  ~ denied_request_stores_nothing E endpoint params w.
Proof.
  cbv zeta.
  split; [reflexivity|]. split; [reflexivity|].
  match goal with
  | |- (exists w', ?run = _ /\ _) /\ _ =>
      let res := eval vm_compute in run in
      assert (Hrun : run = res) by (vm_compute; reflexivity)
  end.
  split.
  - eexists. split; [exact Hrun|]. vm_compute. reflexivity.
  - intros Hnothing.
    specialize (Hnothing eq_refl _ _ Hrun).
    apply (f_equal (fun c => c !! cacheKey (Demo.env (Demo.always Demo.offline))
                                           free_variant [("limit", JNum 50)]))
      in Hnothing.
    vm_compute in Hnothing. discriminate Hnothing.
Qed.

Lemma cache_hit_short_circuits_witness :
  let body := JObj [("data", JObj [("topic", JStr "bitcoin")])] in
  let E := Demo.env (Demo.always (Resolved 200 body)) in
  let w := Demo.world_of_tier (Some "key") Paid in
  let endpoint := "/public/topic/bitcoin/v1" in
  let w2 := cache_set (cacheKey E endpoint [])
                      body (record_call (data_request endpoint [] w)
                                        (Resolved 200 body) w) in
  _makeRequest E 2 endpoint [] w = Some (Ok body, w2) /\
  _makeRequest E 2 endpoint [] w2 = Some (Ok body, w2) /\
  length (calls w2) = 1%nat.
Proof.
  cbv zeta.
  destruct (cache_hit_short_circuits
              (Demo.env (Demo.always
                 (Resolved 200 (JObj [("data", JObj [("topic", JStr "bitcoin")])]))))
              1 "/public/topic/bitcoin/v1" []
              (Demo.world_of_tier (Some "key") Paid))
    as (_ & _ & Htwice).
  destruct (Htwice 200 (JObj [("data", JObj [("topic", JStr "bitcoin")])]))
    as (Hfirst & Hsecond & Hcalls); try reflexivity.
  split; [exact Hfirst|]. split; [exact Hsecond|]. reflexivity.
Defined.

(** Runs the two requests of an assumed [at_most_one_transport_call]
    and feeds their results to it. *)
Ltac run_both Hspec :=
  match type of Hspec with
  | at_most_one_transport_call ?E ?e ?p ?w =>
      let r1 := eval vm_compute in (_makeRequest E depth e p w) in
      match r1 with
      | Some (?a1, ?w1) =>
          let r2 := eval vm_compute in (_makeRequest E depth e p w1) in
          match r2 with
          | Some (?a2, ?w2) =>
              let H1 := fresh "Hfirst" in
              let H2 := fresh "Hsecond" in
              assert (H1 : _makeRequest E depth e p w = Some (a1, w1))
                by (vm_compute; reflexivity);
              assert (H2 : _makeRequest E depth e p w1 = Some (a2, w2))
                by (vm_compute; reflexivity);
              specialize (Hspec _ _ _ _ H1 H2)
          end
      end
  end.

(** C5 as stated fails.  A request answered by the fallback is not
    cached, so two identical requests that are both rate-limited use the
    transport twice; on a new adapter even two successful requests use
    it twice, once for the probe of the tier and once for the data; and
    a falsy value held under the key, here the number 0, is not
    returned: the pipeline goes on to the network. *)
Lemma identical_requests_may_both_reach_the_network :
  let endpoint := "/public/topic/bitcoin/v1" in
  let body := JObj [("data", JObj [("topic", JStr "bitcoin")])] in
  let E := Demo.env (Demo.always (Demo.status 429)) in
  let w := Demo.world_of_tier (Some "key") Paid in
  let w0 := Demo.world_caching (Some "key") Paid (cacheKey E endpoint []) (JNum 0) in
  ~ at_most_one_transport_call E endpoint [] w /\
  ~ at_most_one_transport_call (Demo.env (Demo.always (Resolved 200 body)))
      endpoint [] (Demo.new_world (Some "key")) /\
  cache w0 !! cacheKey E endpoint [] = Some (JNum 0) /\
  ~ returns_cached_value E endpoint [] w0.
Proof.
  cbv zeta. split; [|split; [|split]].
  - intros Hspec. run_both Hspec. simpl in Hspec. lia.
  - intros Hspec. run_both Hspec. simpl in Hspec. lia.
  - vm_compute. reflexivity.
  - intros Hspec.
    specialize (Hspec (JNum 0)).
    assert (Hheld : cache (Demo.world_caching (Some "key") Paid
                             (cacheKey (Demo.env (Demo.always (Demo.status 429)))
                                       "/public/topic/bitcoin/v1" []) (JNum 0))
                      !! cacheKey (Demo.env (Demo.always (Demo.status 429)))
                                  "/public/topic/bitcoin/v1" []
                    = Some (JNum 0)) by (vm_compute; reflexivity).
    specialize (Hspec Hheld). vm_compute in Hspec. discriminate Hspec.
Qed.

Lemma getTopicSentiment_ignores_days_witness :
  let E := Demo.env (Demo.always (Demo.status 429)) in
  let w := Demo.world_of_tier (Some "key") Paid in
  getTopicSentiment E "bitcoin" (JNum 7) w = getTopicSentiment E "bitcoin" (JNum 30) w /\
  exists r w', getTopicSentiment E "bitcoin" (JNum 7) w = Some (r, w').
Proof.
  cbv zeta.
  destruct (getTopicSentiment_ignores_days
              (Demo.env (Demo.always (Demo.status 429))) "bitcoin"
              (JNum 7) (JNum 30) (Demo.world_of_tier (Some "key") Paid))
    as (Hsame & r & w' & new & Hrun & _).
  split; [exact Hsame|]. exists r, w'. exact Hrun.
Defined.

(** ** index.js: the aggregates *)

Lemma num_or_nonzero x d : ~ (d == 0)%Q -> ~ (num_or x d == 0)%Q.
Proof.
  intros Hd. unfold num_or. destruct x as [q|]; [|exact Hd].
  destruct (Qeq_bool q 0) eqn:Hq; [exact Hd|].
  now apply Qeq_bool_neq.
Qed.

Lemma count_max_one q :
  is_count q -> ~ (q == 0)%Q -> (Qmax q 1 == q)%Q.
Proof.
  intros [n ->] Hne. apply Q.max_l.
  unfold Qle, Qeq in *. simpl in *. lia.
Qed.

(** C7, as the code has it.  The three aggregates are 0 on the empty
    sequence (and on an absent one).  For every point the divisor of
    the engagement is the contributor count, with a zero or absent
    count replaced by 1: it is never zero, and it equals
    max(count, 1) whenever the count is a whole number.  The average
    engagement is the mean of social volume over that divisor. *)
Theorem aggregates_guard_division :
  (_calculateAverageSentiment (Some []) = 0%Q /\
   _calculateTotalSocialVolume (Some []) = 0%Q /\
   _calculateAverageEngagement (Some []) = 0%Q) /\
  (_calculateAverageSentiment None = 0%Q /\
   _calculateTotalSocialVolume None = 0%Q /\
   _calculateAverageEngagement None = 0%Q) /\
  (forall d, ~ (socialContributors d == 0)%Q) /\
  (forall d, sc d = None -> socialContributors d = 1%Q) /\
  (forall d q, sc d = Some q -> (q == 0)%Q -> socialContributors d = 1%Q) /\
  (forall d q, sc d = Some q -> ~ (q == 0)%Q -> socialContributors d = q) /\
  (forall d q, sc d = Some q -> is_count q ->
               (socialContributors d == Qmax q 1)%Q) /\
  (forall d l,
      _calculateAverageEngagement (Some (d :: l)) =
      mean_Q (List.map (fun p => (num_or (sv p) 0 / socialContributors p)%Q)
                       (d :: l))).
Proof.
  split; [repeat split|]. split; [repeat split|].
  split; [|split; [|split; [|split; [|split]]]].
  - intros d. apply num_or_nonzero. discriminate.
  - intros d H. unfold socialContributors. now rewrite H.
  - intros d q H Hq. unfold socialContributors, num_or. rewrite H.
    apply Qeq_bool_iff in Hq. now rewrite Hq.
  - intros d q H Hq. unfold socialContributors, num_or. rewrite H.
    destruct (Qeq_bool q 0) eqn:Hb; [|reflexivity].
    apply Qeq_bool_iff in Hb. contradiction.
  - intros d q H Hcount. unfold socialContributors, num_or. rewrite H.
    destruct (Qeq_bool q 0) eqn:Hb.
    + apply Qeq_bool_iff in Hb. rewrite Hb. reflexivity.
    + symmetry. apply count_max_one; [exact Hcount|].
      now apply Qeq_bool_neq.
  - reflexivity.
Qed.

Lemma aggregates_guard_division_witness :
  socialContributors (mkPoint (Some 50%Q) (Some 300%Q) None) = 1%Q /\
  socialContributors (mkPoint (Some 50%Q) (Some 300%Q) (Some 0%Q)) = 1%Q /\
  (socialContributors (mkPoint (Some 50%Q) (Some 300%Q) (Some 4%Q)) == Qmax 4 1)%Q.
Proof.
  destruct aggregates_guard_division
    as (_ & _ & _ & Habsent & Hzero & _ & Hcount & _).
  split; [|split].
  - apply Habsent. reflexivity.
  - apply (Hzero _ 0%Q); reflexivity.
  - apply (Hcount _ 4%Q); [reflexivity|]. exists 4%nat. reflexivity.
Defined.

(** C7 as stated fails in its formula: a count between 0 and 1 is
    truthy and divides as it is, where max(count, 1) would divide by 1. *)
Lemma fractional_count_is_not_raised_to_one :
  let d := mkPoint None (Some 1%Q) (Some (1 # 2)%Q) in
  (engagement d == 2)%Q /\
  (engagement_by_max d == 1)%Q /\
  ~ (engagement d == engagement_by_max d)%Q /\
  ~ (_calculateAverageEngagement (Some [d]) == mean_Q [engagement_by_max d])%Q.
Proof.
  cbv zeta. repeat split; try (vm_compute; reflexivity).
  - vm_compute. discriminate.
  - vm_compute. discriminate.
Qed.

(** ** index.js: [getEcosystemCoins] *)

Section Ecosystem.

Variable E : Env.

Lemma js_some_strings category ss :
  js_some (same_category (CatString category)) (List.map JStr ss) =
  Ok (existsb (fun c => String.eqb (toLowerCase c) (toLowerCase category)) ss).
Proof.
  induction ss as [|c ss IH]; simpl; [reflexivity|].
  destruct (String.eqb (toLowerCase c) (toLowerCase category)); simpl;
    [reflexivity | exact IH].
Qed.

Lemma strings_of_strings ss : strings_of (List.map JStr ss) = ss.
Proof.
  unfold strings_of. induction ss as [|c ss IH]; simpl; [reflexivity|].
  now rewrite IH.
Qed.

Lemma coin_in_category_shape category coin :
  coin_shape coin ->
  coin_in_category E (CatString category) coin = Ok (in_category category coin).
Proof.
  intros (props & -> & Hcats).
  unfold coin_in_category, in_category, category_set. simpl get_prop. cbv iota.
  destruct Hcats as [H | [H | [(ss & H) | (s & H)]]]; rewrite H; simpl.
  - reflexivity.
  - reflexivity.
  - now rewrite js_some_strings, strings_of_strings.
  - destruct (String.eqb s "") eqn:Hs; simpl; [reflexivity|].
    unfold split_trim. rewrite <- List.map_map. apply js_some_strings.
Qed.

Lemma js_filter_total f g l :
  Forall (fun x => f x = Ok (g x)) l ->
  js_filter f l = Ok (List.filter g l).
Proof.
  induction 1 as [|x l Hx Hl IH]; simpl; [reflexivity|].
  now rewrite Hx, IH.
Qed.

Lemma category_of_plain ecosystem :
  existsb (String.eqb ecosystem) object_prototype_names = false ->
  category_of ecosystem = CatString (alias_category ecosystem).
Proof.
  intros H. unfold category_of, alias_category.
  destruct (assoc_string ecosystem categoryMap); [reflexivity|].
  now rewrite H.
Qed.

Lemma js_slice0_firstn {A} limit (l : list A) :
  0 <= limit ->
  js_slice0 limit l = firstn (Z.to_nat limit) l /\
  Z.of_nat (length (js_slice0 limit l)) <= limit.
Proof.
  intros H. unfold js_slice0.
  destruct (Z.ltb_spec limit 0); [lia|]. split; [reflexivity|].
  rewrite List.length_firstn. lia.
Qed.

(** What [getEcosystemCoins] does for a name that is not a property of
    [Object.prototype]: the alias table, the coin list fetched with
    limit 200, the filter by category, the first [limit] items in
    order, and every error of the fetch passed on. *)
Lemma getEcosystemCoins_filters ecosystem limit w :
  existsb (String.eqb ecosystem) object_prototype_names = false ->
  getEcosystemCoins E ecosystem limit w =
    match getCoinsList E 200 w with
    | Some (Ok allCoins, w') =>
        Some (filter_coins E (CatString (alias_category ecosystem)) limit allCoins, w')
    | Some (Throw e, w') => Some (Throw e, w')
    | None => None
    end /\
  (forall coins,
      Forall coin_shape coins ->
      filter_coins E (CatString (alias_category ecosystem)) limit (JArr coins) =
      Ok (js_slice0 limit
            (List.filter (in_category (alias_category ecosystem)) coins))) /\
  (forall coins : list JsValue,
      0 <= limit ->
      js_slice0 limit coins = firstn (Z.to_nat limit) coins /\
      Z.of_nat (length (js_slice0 limit coins)) <= limit).
Proof.
  intros Hplain. split; [|split].
  - unfold getEcosystemCoins, try_catch, bind, lift, throw.
    rewrite (category_of_plain _ Hplain).
    destruct (getCoinsList E 200 w) as [[[v|e] w']|]; try reflexivity.
    now destruct (filter_coins _ _ _ v).
  - intros coins Hshape. unfold filter_coins.
    rewrite (js_filter_total _ (in_category (alias_category ecosystem))).
    + reflexivity.
    + eapply Forall_impl; [exact Hshape|].
      intros coin Hc. now apply coin_in_category_shape.
  - intros coins. apply js_slice0_firstn.
Qed.

End Ecosystem.

(** The example of the specification: of six coins exactly one is in the
    category [solana], and that one is the answer. *)
Example getEcosystemCoins_solana :
  let E := Demo.env (Demo.always (Resolved 200 Demo.six_coins_body)) in
  let w := Demo.world_of_tier (Some "key") Paid in
  List.filter (in_category "solana") Demo.six_coins
    = [Demo.coin "SOL" (JArr [JStr "Solana"; JStr "layer-1"])] /\
  exists w',
    getEcosystemCoins E "solana" 3 w
    = Some (Ok [Demo.coin "SOL" (JArr [JStr "Solana"; JStr "layer-1"])], w').
Proof.
  cbv zeta. split; [reflexivity|]. eexists. vm_compute. reflexivity.
Qed.

Example getEcosystemCoins_alias :
  let E := Demo.env (Demo.always (Resolved 200 Demo.six_coins_body)) in
  let w := Demo.world_of_tier (Some "key") Paid in
  exists w',
    getEcosystemCoins E "ai-agents" 1 w
    = Some (Ok [Demo.coin "FET" (JArr [JStr "ai"; JStr "defi"])], w').
Proof. cbv zeta. eexists. vm_compute. reflexivity. Qed.

Example getEcosystemCoins_fetch_error :
  let E := Demo.env (Demo.always (Demo.status 500)) in
  let w := Demo.world_of_tier (Some "key") Paid in
  exists w',
    getEcosystemCoins E "solana" 3 w
    = Some (Throw (HttpError (Some 500) "Request failed"), w').
Proof. cbv zeta. eexists. vm_compute. reflexivity. Qed.

(** C8 at a name that [Object.prototype] defines.  The name is no alias
    of the table, so the specification has it pass through as the
    category, and the filter would answer with no coin; the code finds
    the inherited property instead and ends in a [TypeError]. *)
Theorem getEcosystemCoins_inherited_name :
  let E := Demo.env (Demo.always (Resolved 200 Demo.six_coins_body)) in
  let w := Demo.world_of_tier (Some "key") Paid in
  assoc_string "constructor" categoryMap = None /\
  alias_category "constructor" = "constructor" /\
  filter_coins E (CatString "constructor") 3 (JArr Demo.six_coins) = Ok [] /\
  category_of "constructor" = CatInherited "constructor" /\
  exists w',
    getEcosystemCoins E "constructor" 3 w
    = Some (Throw (TypeError "category.toLowerCase is not a function"), w').
Proof.
  cbv zeta. repeat split; try reflexivity.
  eexists. vm_compute. reflexivity.
Qed.

Lemma canAccessEndpoint_by_tier_witness :
  let E := Demo.env (Demo.always Demo.offline) in
  fst (canAccessEndpoint E "/public/topic/bitcoin/v1"
                         (Demo.world_of_tier (Some "key") Free)) = true /\
  fst (canAccessEndpoint E "/public/coins/list/v2"
                         (Demo.world_of_tier (Some "key") Paid)) = true /\
  fst (canAccessEndpoint E "/public/topic/bitcoin/v1"
                         (Demo.new_world None)) = false.
Proof.
  cbv zeta. split; [|split].
  - pose proof (canAccessEndpoint_by_tier (Demo.env (Demo.always Demo.offline))
                  "/public/topic/bitcoin/v1"
                  (Demo.world_of_tier (Some "key") Free)) as H.
    destruct (canAccessEndpoint _ _ _) as [answer w'].
    destruct H as (t & Hpre & _ & _ & _ & Hfree).
    cbn in Hpre. destruct Hpre as [-> _].
    apply Hfree; [reflexivity|].
    left. exists "bitcoin". repeat split. discriminate.
  - pose proof (canAccessEndpoint_by_tier (Demo.env (Demo.always Demo.offline))
                  "/public/coins/list/v2"
                  (Demo.world_of_tier (Some "key") Paid)) as H.
    destruct (canAccessEndpoint _ _ _) as [answer w'].
    destruct H as (t & Hpre & _ & Hpaid & _).
    cbn in Hpre. destruct Hpre as [-> _].
    now apply Hpaid.
  - pose proof (canAccessEndpoint_by_tier (Demo.env (Demo.always Demo.offline))
                  "/public/topic/bitcoin/v1" (Demo.new_world None)) as H.
    destruct (canAccessEndpoint _ _ _) as [answer w'].
    destruct H as (t & Hpre & _ & _ & Hdenied & _).
    vm_compute in Hpre. injection Hpre as -> _.
    apply Hdenied. now left.
Defined.

(** * Further properties of the sources *)

(** ** helpers.js *)

Lemma toLowerCase_fixed s :
  all_chars (fun c => negb (is_upper c)) s = true -> toLowerCase s = s.
Proof.
  induction s as [|c s IH]; simpl; [reflexivity|].
  rewrite andb_true_iff. intros [Hc Hs].
  unfold lower_char. apply negb_true_iff in Hc. rewrite Hc. now rewrite IH.
Qed.

Lemma strip_spaces_fixed s :
  all_chars (fun c => negb (is_space c)) s = true -> strip_spaces s = s.
Proof.
  induction s as [|c s IH]; simpl; [reflexivity|].
  rewrite andb_true_iff. intros [Hc Hs].
  apply negb_true_iff in Hc. rewrite Hc. now rewrite IH.
Qed.

Lemma AZ09_not_space c : is_AZ09 c = true -> is_space c = false.
Proof. destruct c as [[] [] [] [] [] [] [] []]; vm_compute; congruence. Qed.

Lemma all_chars_impl (P Q : ascii -> bool) s :
  (forall c, P c = true -> Q c = true) ->
  all_chars P s = true -> all_chars Q s = true.
Proof.
  intros HPQ. induction s as [|c s IH]; simpl; [reflexivity|].
  rewrite !andb_true_iff. intros [Hc Hs]. auto.
Qed.

(** X1. Normalising twice is normalising once, and the result of
    [normalizeCoinIdentifier] never contains white space, whatever the
    input. *)
Theorem normalizeCoinIdentifier_idempotent coin :
  normalizeCoinIdentifier (Some (normalizeCoinIdentifier coin))
    = normalizeCoinIdentifier coin /\
  all_chars (fun c => negb (is_space c)) (normalizeCoinIdentifier coin) = true.
Proof.
  destruct coin as [s|]; [|split; reflexivity].
  destruct s as [|c s]; [split; reflexivity|].
  assert (Heq : normalizeCoinIdentifier (Some (String c s)) =
                if is_symbol (String c s) then String c s
                else strip_spaces (toLowerCase (String c s))) by reflexivity.
  rewrite Heq. clear Heq.
  destruct (is_symbol (String c s)) eqn:Hsym.
  - split.
    + unfold normalizeCoinIdentifier. now rewrite Hsym.
    + apply is_symbol_shape in Hsym as [_ Hall].
      eapply all_chars_impl; [|exact Hall].
      intros c' Hc'. now rewrite (AZ09_not_space c' Hc').
  - set (r := strip_spaces (toLowerCase (String c s))).
    assert (Hspace : all_chars (fun c => negb (is_space c)) r = true)
      by apply strip_spaces_no_space.
    assert (Hlower : all_chars (fun c => negb (is_upper c)) r = true)
      by apply strip_spaces_keeps, toLowerCase_no_upper.
    split; [|exact Hspace].
    clearbody r. unfold normalizeCoinIdentifier.
    destruct r as [|c' r']; [reflexivity|].
    destruct (is_symbol (String c' r')); [reflexivity|].
    now rewrite (toLowerCase_fixed _ Hlower), (strip_spaces_fixed _ Hspace).
Qed.

Section PeriodFacts.

Import Period.

Lemma take_digits_all s :
  all_chars is_digit (fst (take_digits s)) = true /\
  s = fst (take_digits s) ++ snd (take_digits s) /\
  (forall c rest, snd (take_digits s) = String c rest -> is_digit c = false).
Proof.
  induction s as [|c s (IH1 & IH2 & IH3)]; simpl.
  - repeat split. discriminate.
  - destruct (is_digit c) eqn:Hc.
    + destruct (take_digits s) as [ds rest].
      simpl fst in *. simpl snd in *. split; [|split].
      * simpl. now rewrite Hc, IH1.
      * change (String c s = String c (ds ++ rest)). now f_equal.
      * exact IH3.
    + simpl. repeat split. intros c' rest [= <- _]. exact Hc.
Qed.

Lemma take_digits_app ds u :
  all_chars is_digit ds = true -> is_digit u = false ->
  take_digits (ds ++ String u "") = (ds, String u "").
Proof.
  intros Hds Hu. induction ds as [|c ds IH]; simpl.
  - now rewrite Hu.
  - simpl in Hds. apply andb_true_iff in Hds as [Hc Hds].
    rewrite Hc. fold (ds ++ String u ""). now rewrite (IH Hds).
Qed.

Lemma unit_not_digit u : is_unit u = true -> is_digit u = false.
Proof. destruct u as [[] [] [] [] [] [] [] []]; vm_compute; congruence. Qed.

Lemma period_match_shape s value unit :
  period_match s = Some (value, unit) <->
  s = value ++ String unit "" /\ value <> "" /\
  all_chars is_digit value = true /\ is_unit unit = true.
Proof.
  split.
  - unfold period_match.
    destruct (take_digits_all s) as (Hall & Hs & _).
    destruct (take_digits s) as [ds rest]. simpl in *.
    destruct ds as [|c ds]; [discriminate|].
    destruct rest as [|u [|? ?]]; try discriminate.
    destruct (is_unit u) eqn:Hu; [|discriminate].
    intros [= <- <-]. split; [exact Hs|]. split; [discriminate|]. auto.
  - intros (-> & Hne & Hall & Hu). unfold period_match.
    rewrite (take_digits_app _ _ Hall (unit_not_digit _ Hu)).
    destruct value; [congruence|]. now rewrite Hu.
Qed.

Lemma digits_value_nonneg s : forall acc,
  0 <= acc -> all_chars is_digit s = true -> 0 <= digits_value acc s.
Proof.
  induction s as [|c s IH]; intros acc Hacc; simpl; [auto|].
  rewrite andb_true_iff. intros [Hc Hs]. apply IH; [|exact Hs].
  unfold is_digit, in_range in Hc. apply andb_true_iff in Hc as [Hlo _].
  apply N.leb_le in Hlo. lia.
Qed.

(** X2. [periodToDays] answers 7 for every string that is not one or
    more digits followed by exactly one of [h d w m y].  On such a
    string with the decimal value [v] (small enough for the products to
    be exact doubles) it answers [v] for days, [7 v] for weeks, [30 v]
    for months, [365 v] for years, and [k] for [24 k] hours.  Its answer
    is never negative. *)
Theorem periodToDays_by_shape :
  (forall s, ~ period_shape s -> periodToDays s = 7%Q) /\
  (forall ds u, ds <> "" -> all_chars is_digit ds = true -> is_unit u = true ->
     parseInt ds * 365 < 2 ^ 53 ->
     (u <> "h"%char ->
      (periodToDays (ds ++ String u "") == inject_Z (parseInt ds) * days_per u)%Q) /\
     (u = "h"%char -> forall k, parseInt ds = 24 * k ->
      (periodToDays (ds ++ String u "") == inject_Z k)%Q)) /\
  (forall s, (0 <= periodToDays s)%Q).
Proof.
  split; [|split].
  - intros s Hshape. unfold periodToDays.
    destruct (period_match s) as [[value unit]|] eqn:Hm; [|reflexivity].
    exfalso. apply Hshape. apply period_match_shape in Hm as (-> & H1 & H2 & H3).
    exists value, unit. auto.
  - intros ds u Hne Hall Hu _. unfold periodToDays.
    assert (Hm : period_match (ds ++ String u "") = Some (ds, u))
      by (apply period_match_shape; auto).
    rewrite Hm. unfold days_per. split.
    + intros Hnoth.
      destruct (Ascii.eqb u "h") eqn:Hh;
        [apply Ascii.eqb_eq in Hh; contradiction|].
      destruct (Ascii.eqb u "d") eqn:Hd; [now rewrite Qmult_1_r|].
      destruct (Ascii.eqb u "w") eqn:Hw; [reflexivity|].
      destruct (Ascii.eqb u "m") eqn:Hmo; [reflexivity|].
      destruct (Ascii.eqb u "y") eqn:Hy; [reflexivity|].
      exfalso. clear -Hu Hh Hd Hw Hmo Hy.
      destruct u as [[] [] [] [] [] [] [] []]; vm_compute in *; congruence.
    + intros -> k Hk. simpl. rewrite Hk.
      unfold Qdiv, Qeq. simpl. lia.
  - intros s. unfold periodToDays.
    destruct (period_match s) as [[value unit]|] eqn:Hm; [|discriminate].
    apply period_match_shape in Hm as (_ & _ & Hall & _).
    assert (Hv : (0 <= inject_Z (parseInt value))%Q).
    { unfold parseInt. change 0%Q with (inject_Z 0). rewrite <- Zle_Qle.
      apply digits_value_nonneg; [lia | exact Hall]. }
    destruct (Ascii.eqb unit "h").
    { apply Qle_shift_div_l; [reflexivity|]. now rewrite Qmult_0_l. }
    destruct (Ascii.eqb unit "d"); [exact Hv|].
    destruct (Ascii.eqb unit "w"); [apply Qmult_le_0_compat; [exact Hv | discriminate]|].
    destruct (Ascii.eqb unit "m"); [apply Qmult_le_0_compat; [exact Hv | discriminate]|].
    destruct (Ascii.eqb unit "y"); [apply Qmult_le_0_compat; [exact Hv | discriminate]|].
    discriminate.
Qed.

End PeriodFacts.

Lemma periodToDays_by_shape_witness :
  Period.periodToDays "bogus" = 7%Q /\
  (Period.periodToDays "2w" == 14)%Q /\
  (Period.periodToDays "48h" == 2)%Q.
Proof.
  destruct periodToDays_by_shape as (Hdefault & Hshape & _).
  split; [|split].
  - apply Hdefault. intros (ds & u & Hs & _ & Hall & Hu).
    destruct ds as [|c0 [|c1 [|c2 [|c3 [|c4 ds]]]]];
      simpl in Hs; try discriminate Hs;
      injection Hs as <- <- <- <- <-; simpl in Hall; discriminate Hall.
  - destruct (Hshape "2" "w"%char) as (Hwhole & _);
      [discriminate | reflexivity | reflexivity | reflexivity |].
    rewrite Hwhole by discriminate. reflexivity.
  - destruct (Hshape "48" "h"%char) as (_ & Hhours);
      [discriminate | reflexivity | reflexivity | reflexivity |].
    apply (Hhours eq_refl 2). reflexivity.
Defined.

(** ** auth.js and the request pipeline *)

Section Invariants.

Variable E : Env.

Lemma mock_envelope_clock endpoint params w :
  lastTierCheck (snd (mock_envelope E endpoint params w)) = lastTierCheck w /\
  ticks (snd (mock_envelope E endpoint params w)) = ticks w.
Proof.
  unfold mock_envelope, _getMockData.
  destruct (includes "/coins/list" endpoint); simpl; [auto|].
  destruct (includes "/coins/" endpoint); simpl; [auto|].
  destruct (includes "/topic/" endpoint); simpl; auto.
Qed.

(** With a tier memoised, a call of the pipeline leaves the detector
    alone, and its use of the transport is bounded. *)
Lemma makeRequest_known_tier n : forall endpoint params w r w' t,
  apiTier w = Some t ->
  _makeRequest E n endpoint params w = Some (r, w') ->
  (apiTier w' = Some t /\ lastTierCheck w' = lastTierCheck w /\
   ticks w' = ticks w) /\
  (length (calls w') <=
   length (calls w) + 1 + (if includes "/coins/list/v2" endpoint then 1 else 0))%nat.
Proof.
  induction n as [|n IH]; intros endpoint params w r w' t Ht; [discriminate|].
  assert (Hfall : forall wx r0 w0,
             apiTier wx = Some t ->
             fallback_with E (_makeRequest E n) endpoint params wx = Some (r0, w0) ->
             (apiTier w0 = Some t /\ lastTierCheck w0 = lastTierCheck wx /\
              ticks w0 = ticks wx) /\
             (length (calls w0) <=
              length (calls wx)
              + (if includes "/coins/list/v2" endpoint then 1 else 0))%nat).
  { intros wx r0 w0 Htx. unfold fallback_with, try_catch.
    destruct (includes "/coins/list/v2" endpoint).
    - fold free_variant.
      destruct (_makeRequest E n free_variant params wx) as [[[a|err] w3]|] eqn:Hreq;
        [| |discriminate].
      + intros [= <- <-]. destruct (IH _ _ _ _ _ _ Htx Hreq) as (Hf & Hlen).
        rewrite free_variant_is_final in Hlen. split; [exact Hf | lia].
      + destruct (IH _ _ _ _ _ _ Htx Hreq) as ((Ht3 & Hl3 & Hk3) & Hlen).
        rewrite free_variant_is_final in Hlen.
        pose proof (mock_envelope_frame E endpoint params w3)
          as (_ & _ & Hcalls & Htier & _).
        pose proof (mock_envelope_clock endpoint params w3) as (Hl & Hk).
        destruct (mock_envelope E endpoint params w3) as [v w4]. simpl in *.
        intros [= <- <-]. repeat split; try congruence. rewrite Hcalls. lia.
    - pose proof (mock_envelope_frame E endpoint params wx)
        as (_ & _ & Hcalls & Htier & _).
      pose proof (mock_envelope_clock endpoint params wx) as (Hl & Hk).
      destruct (mock_envelope E endpoint params wx) as [v w4]. simpl in *.
      intros [= <- <-]. repeat split; try congruence. rewrite Hcalls. lia. }
  rewrite makeRequest_unfold.
  destruct (cached_truthy _ w) as [c|].
  { intros [= <- <-]. repeat split; auto. lia. }
  unfold request_after_miss.
  rewrite (canAccessEndpoint_detected E _ _ _ Ht).
  destruct (negb (answer_for t endpoint)).
  { intros Hf. destruct (Hfall _ _ _ Ht Hf) as (H1 & H2). split; [exact H1 | lia]. }
  unfold axios_get.
  set (req := data_request endpoint params w).
  set (out := http_get E (length (calls w)) req).
  assert (Hrec : apiTier (record_call req out w) = Some t) by exact Ht.
  destruct out as [st d|err] eqn:Hout.
  - intros [= <- <-]. simpl. repeat split; auto.
    destruct (includes "/coins/list/v2" endpoint); lia.
  - destruct (status_is 402 err).
    { intros Hf. destruct (Hfall _ _ _ Hrec Hf) as (H1 & H2).
      simpl in *. split; [exact H1 | lia]. }
    destruct (status_is 429 err).
    { intros Hf. destruct (Hfall _ _ _ Hrec Hf) as (H1 & H2).
      simpl in *. split; [exact H1 | lia]. }
    intros [= <- <-]. simpl. repeat split; auto.
    destruct (includes "/coins/list/v2" endpoint); lia.
Qed.

(** On a cache miss the pipeline behaves as if the tier had been
    detected beforehand. *)
Lemma request_detects_first n endpoint params w :
  cached_truthy (cacheKey E endpoint params) w = None ->
  _makeRequest E (S n) endpoint params w =
  _makeRequest E (S n) endpoint params (snd (canAccessEndpoint E endpoint w)).
Proof.
  intros Hmiss.
  destruct (canAccessEndpoint_frame E endpoint w)
    as (_ & Hc & _ & (t & Ht & Hans) & _).
  rewrite !makeRequest_unfold, (cached_truthy_cache _ w _ Hc), Hmiss.
  unfold request_after_miss.
  rewrite (canAccessEndpoint_detected E endpoint _ t Ht).
  destruct (canAccessEndpoint E endpoint w) as [answer w1].
  simpl in *. now rewrite Hans.
Qed.

(** X3. Once a tier is memoised, no request runs the detector again,
    however much time has passed: the clock is not read, the tier and
    the time of the last check stay as they were. *)
Theorem memoised_tier_is_never_refreshed n endpoint params w t :
  apiTier w = Some t ->
  exists r w',
    _makeRequest E (S (S n)) endpoint params w = Some (r, w') /\
    apiTier w' = Some t /\ lastTierCheck w' = lastTierCheck w /\
    ticks w' = ticks w.
Proof.
  intros Ht.
  destruct (makeRequest_total E n endpoint params w) as (r & w' & Hreq).
  exists r, w'. split; [exact Hreq|].
  apply (makeRequest_known_tier _ _ _ _ _ _ _ Ht Hreq).
Qed.

(** X4. One request uses the transport at most three times (the probe
    of the tier, the GET for the endpoint, the GET for the free
    variant): at most twice when a tier is memoised or the endpoint has
    no free variant, and at most once when both hold. *)
Theorem transport_use_is_bounded n endpoint params w :
  exists r w',
    _makeRequest E (S (S n)) endpoint params w = Some (r, w') /\
    (length (calls w') <= length (calls w) + 3)%nat /\
    (apiTier w <> None -> (length (calls w') <= length (calls w) + 2)%nat) /\
    (includes "/coins/list/v2" endpoint = false ->
     (length (calls w') <= length (calls w) + 2)%nat) /\
    (apiTier w <> None -> includes "/coins/list/v2" endpoint = false ->
     (length (calls w') <= length (calls w) + 1)%nat).
Proof.
  destruct (makeRequest_total E n endpoint params w) as (r & w' & Hreq).
  exists r, w'. split; [exact Hreq|].
  assert (Hknown : forall t, apiTier w = Some t ->
            (length (calls w') <= length (calls w) + 1 +
               (if includes "/coins/list/v2" endpoint then 1 else 0))%nat).
  { intros t Ht. apply (makeRequest_known_tier _ _ _ _ _ _ _ Ht Hreq). }
  assert (Hany : (length (calls w') <= length (calls w) + 2 +
               (if includes "/coins/list/v2" endpoint then 1 else 0))%nat).
  { destruct (apiTier w) as [t|] eqn:Ht; [specialize (Hknown t eq_refl); lia|].
    destruct (cached_truthy (cacheKey E endpoint params) w) as [c|] eqn:Hc.
    - rewrite makeRequest_unfold, Hc in Hreq. injection Hreq as _ <-. lia.
    - rewrite (request_detects_first _ _ _ _ Hc) in Hreq.
      destruct (canAccessEndpoint_frame E endpoint w)
        as (_ & _ & _ & (t & Ht' & _) & Hcalls).
      destruct (makeRequest_known_tier _ _ _ _ _ _ _ Ht' Hreq) as (_ & Hlen).
      destruct Hcalls as [H|H]; rewrite H in Hlen; simpl in Hlen; lia. }
  repeat split.
  - destruct (includes "/coins/list/v2" endpoint); lia.
  - intros Hset. destruct (apiTier w) as [t|]; [|congruence].
    specialize (Hknown t eq_refl).
    destruct (includes "/coins/list/v2" endpoint); lia.
  - intros Hinc. rewrite Hinc in Hany. lia.
  - intros Hset Hinc. destruct (apiTier w) as [t|]; [|congruence].
    specialize (Hknown t eq_refl). rewrite Hinc in Hknown. lia.
Qed.

End Invariants.

Lemma memoised_tier_is_never_refreshed_witness :
  let E := Demo.env (Demo.always (Demo.status 429)) in
  let w := Demo.world_of_tier (Some "key") Paid in
  exists r w',
    _makeRequest E 2 "/public/coins/list/v2" [("limit", JNum 50)] w = Some (r, w') /\
    apiTier w' = Some Paid /\ lastTierCheck w' = lastTierCheck w /\ ticks w' = 0%nat.
Proof.
  cbv zeta.
  apply (memoised_tier_is_never_refreshed
           (Demo.env (Demo.always (Demo.status 429))) 0
           "/public/coins/list/v2" [("limit", JNum 50)]
           (Demo.world_of_tier (Some "key") Paid) Paid).
  reflexivity.
Defined.

(** The bound of three is reached: a new adapter whose probe succeeds
    and whose request for the paid coin list is rate-limited. *)
Example transport_use_three :
  let body := JObj [("data", JArr [])] in
  let E := Demo.env (Demo.script [Resolved 200 body; Demo.status 429]
                                 (Resolved 200 body)) in
  exists r w',
    _makeRequest E 2 "/public/coins/list/v2" [("limit", JNum 50)]
                 (Demo.new_world (Some "key")) = Some (r, w') /\
    length (calls w') = 3%nat.
Proof. cbv zeta. eexists. eexists. split; vm_compute; reflexivity. Qed.

Section Keyless.

Variable E : Env.

Lemma keyless_access endpoint w :
  keyless w ->
  let w1 := snd (canAccessEndpoint E endpoint w) in
  fst (canAccessEndpoint E endpoint w) = false /\
  apiTier w1 = Some Invalid /\ calls w1 = calls w /\
  cache w1 = cache w /\ apiKey w1 = apiKey w.
Proof.
  intros [Hkey [Hnone|Hinv]].
  - unfold canAccessEndpoint. rewrite Hnone.
    unfold detectApiTier, memo_fresh. simpl. rewrite Hnone.
    change (apiKey_missing (tick w)) with (apiKey_missing w). rewrite Hkey. simpl.
    repeat split.
  - rewrite (canAccessEndpoint_detected E _ _ _ Hinv). simpl. repeat split; auto.
Qed.

(** X5. An adapter without a credential never uses the transport and
    never fails: every request returns a value, sends nothing, writes
    nothing to the cache, and leaves the adapter without a credential
    and with no tier but [invalid], so the same holds for every request
    that follows. *)
Theorem keyless_adapter_never_calls n endpoint params w :
  keyless w ->
  exists v w',
    _makeRequest E (S (S n)) endpoint params w = Some (Ok v, w') /\
    calls w' = calls w /\ cache w' = cache w /\ keyless w'.
Proof.
  intros Hkeyless.
  rewrite makeRequest_unfold.
  destruct (cached_truthy (cacheKey E endpoint params) w) as [c|] eqn:Hc.
  { exists c, w. auto. }
  destruct (keyless_access endpoint w Hkeyless) as (Hans & Ht & Hcalls & Hcache & Hkey).
  unfold request_after_miss.
  destruct (canAccessEndpoint E endpoint w) as [answer w1]. simpl in *.
  subst answer. simpl.
  assert (Hmissing : apiKey_missing w1 = true).
  { destruct Hkeyless as [H _]. unfold apiKey_missing in *. now rewrite Hkey. }
  assert (Hmock : forall e wx,
             apiTier wx = Some Invalid -> apiKey_missing wx = true ->
             calls wx = calls w -> cache wx = cache w ->
             exists v w',
               Some (Ok (fst (mock_envelope E e params wx)),
                     snd (mock_envelope E e params wx)) = Some (Ok v, w') /\
               calls w' = calls w /\ cache w' = cache w /\ keyless w').
  { intros e wx Htx Hkx Hcx Hchx.
    pose proof (mock_envelope_frame E e params wx) as (Hk' & Hc' & Hcalls' & Ht' & _).
    eexists. eexists. split; [reflexivity|].
    repeat split; try congruence.
    - unfold apiKey_missing in *. now rewrite Hk'.
    - right. congruence. }
  destruct (includes "/coins/list/v2" endpoint) eqn:Hinc.
  - unfold fallback_with, try_catch. rewrite Hinc. fold free_variant.
    rewrite (free_variant_denied E n params w1 Invalid Ht eq_refl).
    destruct (cached_truthy (cacheKey E free_variant params) w1) as [c|].
    + exists c, w1. repeat split; auto.
    + apply Hmock; auto.
  - rewrite (fallback_final E _ _ _ _ Hinc). apply Hmock; auto.
Qed.

(** X6. Every request that the pipeline sends goes to the API: its URL
    is the base URL followed by the endpoint asked for, by its free
    variant or by the path of the probe, and it carries the credential
    of the adapter in its authorization header. *)
Theorem requests_go_to_the_api_only n endpoint params w :
  exists r w' new,
    _makeRequest E (S (S n)) endpoint params w = Some (r, w') /\
    calls w' = (new ++ calls w)%list /\
    Forall (fun c =>
              req_authorization (fst c) = bearer w /\
              (req_url (fst c) = baseUrl ++ endpoint \/
               req_url (fst c) = baseUrl ++ free_variant \/
               req_url (fst c) = baseUrl ++ "/public/coins/list/v2"))
           new.
Proof.
  destruct (makeRequest_total E n endpoint params w) as (r & w' & Hreq).
  exists r, w'.
  destruct (makeRequest_effect E _ _ _ _ _ _ Hreq) as (_ & new & Hnew & Hall & _).
  exists new. split; [exact Hreq|]. split; [exact Hnew|].
  eapply Forall_impl; [exact Hall|].
  intros [req out] [->|[->| ->]]; simpl; auto.
Qed.

(** X7. A successful response with a falsy body (null, 0, false, the
    empty string) is stored in the cache and yet never served: the
    identical request that follows sends the GET again. *)
Theorem falsy_body_is_fetched_again n endpoint params w t st d :
  let req := data_request endpoint params w in
  let w2 := cache_set (cacheKey E endpoint params) d
                      (record_call req (Resolved st d) w) in
  apiTier w = Some t -> answer_for t endpoint = true ->
  cached_truthy (cacheKey E endpoint params) w = None ->
  http_get E (length (calls w)) req = Resolved st d ->
  truthy d = false ->
  _makeRequest E (S (S n)) endpoint params w = Some (Ok d, w2) /\
  cache w2 !! cacheKey E endpoint params = Some d /\
  exists r w3 more,
    _makeRequest E (S (S n)) endpoint params w2 = Some (r, w3) /\
    calls w3 = (more ++ (req, http_get E (S (length (calls w))) req) :: calls w2)%list.
Proof.
  intros req w2 Ht Hgrant Hmiss Hout Hfalsy.
  assert (Hfirst : _makeRequest E (S (S n)) endpoint params w = Some (Ok d, w2)).
  { rewrite makeRequest_unfold, Hmiss. unfold request_after_miss.
    rewrite (canAccessEndpoint_detected E _ _ _ Ht), Hgrant. simpl.
    unfold axios_get. fold req. now rewrite Hout. }
  assert (Hheld : cache w2 !! cacheKey E endpoint params = Some d).
  { subst w2. unfold cache_set. simpl. apply lookup_insert_eq. }
  split; [exact Hfirst|]. split; [exact Hheld|].
  assert (Hmiss2 : cached_truthy (cacheKey E endpoint params) w2 = None).
  { unfold cached_truthy, cache_get. now rewrite Hheld, Hfalsy. }
  assert (Ht2 : apiTier w2 = Some t) by exact Ht.
  assert (Hreq2 : data_request endpoint params w2 = req) by reflexivity.
  destruct (makeRequest_total E n endpoint params w2) as (r & w3 & Hsecond).
  exists r, w3.
  pose proof Hsecond as Hrun.
  rewrite makeRequest_unfold, Hmiss2 in Hrun. unfold request_after_miss in Hrun.
  rewrite (canAccessEndpoint_detected E _ _ _ Ht2), Hgrant in Hrun. simpl in Hrun.
  unfold axios_get in Hrun. rewrite Hreq2 in Hrun.
  change (length (calls w2)) with (S (length (calls w))) in Hrun.
  set (out2 := http_get E (S (length (calls w))) req) in *.
  assert (Hfall : forall r0 w0,
             fallback_with E (_makeRequest E (S n)) endpoint params
                           (record_call req out2 w2) = Some (r0, w0) ->
             exists more, calls w0 = (more ++ (req, out2) :: calls w2)%list).
  { intros r0 w0 Hf.
    apply (fallback_effect E (S n)) in Hf; [|apply makeRequest_effect].
    destruct Hf as (_ & more & Hmore & _). exists more. exact Hmore. }
  destruct out2 as [st2 d2|err].
  - injection Hrun as _ <-. exists []. split; [exact Hsecond | reflexivity].
  - destruct (status_is 402 err).
    { destruct (Hfall _ _ Hrun) as (more & Hmore). eauto. }
    destruct (status_is 429 err).
    { destruct (Hfall _ _ Hrun) as (more & Hmore). eauto. }
    injection Hrun as _ <-. exists []. split; [exact Hsecond | reflexivity].
Qed.

(** X8. After a detection that sent the probe, a second detection less
    than 24 hours later sends nothing and returns the same tier. *)
Theorem detection_is_memoised_for_a_day w :
  let now1 := date_now E (ticks w) in
  let now2 := date_now E (S (ticks w)) in
  let '(t1, w1) := detectApiTier E w in
  ~ computed_recently now1 w -> ~ no_credential w ->
  now1 <> 0 -> now2 - now1 < 24 * 60 * 60 * 1000 ->
  length (calls w1) = S (length (calls w)) /\
  detectApiTier E w1 = (t1, tick w1).
Proof.
  cbv zeta. unfold detectApiTier at 1. simpl.
  change (memo_fresh (date_now E (ticks w)) (tick w))
    with (memo_fresh (date_now E (ticks w)) w).
  change (apiKey_missing (tick w)) with (apiKey_missing w).
  destruct (memo_fresh (date_now E (ticks w)) w) eqn:Hm.
  { intros Hnot. exfalso. apply memo_fresh_none in Hnot. congruence. }
  destruct (apiKey_missing w) eqn:Hk.
  { intros _ Hnc. exfalso. apply Hnc. now apply apiKey_missing_spec. }
  simpl. intros _ _ Hnz Hlt. split; [reflexivity|].
  unfold detectApiTier. simpl.
  unfold memo_fresh. simpl. unfold tierCheckInterval.
  destruct (Z.eqb_spec (date_now E (ticks w)) 0) as [H0|_]; [contradiction|].
  destruct (Z.ltb_spec (date_now E (S (ticks w)) - date_now E (ticks w))
                       (24 * 60 * 60 * 1000)) as [_|Hge]; [|lia].
  reflexivity.
Qed.

End Keyless.

Lemma keyless_adapter_never_calls_witness :
  let E := Demo.env (Demo.always (Resolved 200 JNull)) in
  exists v w',
    _makeRequest E 2 "/public/coins/btc/v1" [] (Demo.new_world None)
      = Some (Ok v, w') /\
    calls w' = [] /\ keyless w'.
Proof.
  cbv zeta.
  destruct (keyless_adapter_never_calls
              (Demo.env (Demo.always (Resolved 200 JNull))) 0
              "/public/coins/btc/v1" [] (Demo.new_world None))
    as (v & w' & Hrun & Hcalls & _ & Hkeyless).
  - split; [reflexivity | left; reflexivity].
  - exists v, w'. auto.
Defined.

Lemma falsy_body_is_fetched_again_witness :
  let E := Demo.env (Demo.always (Resolved 200 JNull)) in
  let w := Demo.world_of_tier (Some "key") Paid in
  let endpoint := "/public/topic/bitcoin/v1" in
  exists w2 r w3,
    _makeRequest E 2 endpoint [] w = Some (Ok JNull, w2) /\
    _makeRequest E 2 endpoint [] w2 = Some (r, w3) /\
    length (calls w3) = 2%nat.
Proof.
  cbv zeta.
  destruct (falsy_body_is_fetched_again
              (Demo.env (Demo.always (Resolved 200 JNull))) 0
              "/public/topic/bitcoin/v1" []
              (Demo.world_of_tier (Some "key") Paid) Paid 200 JNull)
    as (Hfirst & _ & r & w3 & more & Hsecond & Hcalls); try reflexivity.
  eexists. exists r, w3. split; [exact Hfirst|]. split; [exact Hsecond|].
  vm_compute in Hsecond. injection Hsecond as _ <-. reflexivity.
Defined.

Lemma detection_is_memoised_for_a_day_witness :
  let E := Demo.env (Demo.always (Demo.status 402)) in
  let w := Demo.new_world (Some "key") in
  fst (detectApiTier E w) = Free /\
  detectApiTier E (snd (detectApiTier E w))
    = (Free, tick (snd (detectApiTier E w))).
Proof.
  cbv zeta.
  pose proof (detection_is_memoised_for_a_day
                (Demo.env (Demo.always (Demo.status 402)))
                (Demo.new_world (Some "key"))) as H.
  cbv zeta in H.
  destruct (detectApiTier (Demo.env (Demo.always (Demo.status 402)))
                          (Demo.new_world (Some "key"))) as [t1 w1] eqn:Hd.
  destruct H as (_ & Hagain).
  - intros (t & l & Habs & _). discriminate Habs.
  - intros [Habs|Habs]; discriminate Habs.
  - simpl. lia.
  - simpl. lia.
  - vm_compute in Hd. injection Hd as <- <-.
    split; [reflexivity | exact Hagain].
Defined.

(** ** index.js: what the fallback returns for each public operation *)

Section FallbackRouting.

Variable E : Env.

Lemma is_prefix_app_l a b s :
  is_prefix (a ++ b) s = true -> is_prefix a s = true.
Proof.
  revert s. induction a as [|c a IH]; intros s; [reflexivity|].
  destruct s as [|c' s]; simpl; [discriminate|].
  destruct (Ascii.eqb c c'); [apply IH | discriminate].
Qed.

Lemma includes_app_l a b s :
  includes (a ++ b) s = true -> includes a s = true.
Proof.
  induction s as [|c s IH]; simpl.
  - rewrite !orb_false_r. apply is_prefix_app_l.
  - rewrite !orb_true_iff. intros [H|H];
      [left; now apply is_prefix_app_l in H | right; auto].
Qed.

Lemma is_prefix_self a s : is_prefix a (a ++ s) = true.
Proof.
  induction a as [|c a IH]; [reflexivity|].
  simpl. now rewrite Ascii.eqb_refl.
Qed.

Lemma includes_here a s : includes a (a ++ s) = true.
Proof.
  destruct (a ++ s) eqn:H; simpl; rewrite <- H, is_prefix_self; reflexivity.
Qed.

Lemma includes_later a x s : includes a s = true -> includes a (x ++ s) = true.
Proof.
  intros H. induction x as [|c x IH]; [exact H|].
  change (includes a (String c (x ++ s)) = true). simpl.
  rewrite IH. apply orb_true_r.
Qed.

Lemma rev_app_twice a : forall b c,
  String.rev_app (String.rev_app a b) c = String.rev_app b (a ++ c).
Proof.
  induction a as [|x a IH]; intros b c; [reflexivity|].
  simpl. rewrite IH. reflexivity.
Qed.

(** A segment without separator, up to the next separator. *)
Lemma split_acc_segment x : forall cur rest,
  no_slash x ->
  split_acc "/" cur (x ++ String "/" rest) =
  String.rev (String.rev_app x cur) :: split_acc "/" EmptyString rest.
Proof.
  induction x as [|c x IH]; intros cur rest Hx; [reflexivity|].
  unfold no_slash in Hx. simpl in Hx. apply andb_true_iff in Hx as [Hc Hx].
  change (String c x ++ String "/" rest) with (String c (x ++ String "/" rest)).
  simpl. unfold is_slash in Hc. apply negb_true_iff in Hc. rewrite Hc.
  now rewrite IH.
Qed.

Lemma split_acc_last x : forall cur,
  no_slash x -> split_acc "/" cur x = [String.rev (String.rev_app x cur)].
Proof.
  induction x as [|c x IH]; intros cur Hx; [reflexivity|].
  unfold no_slash in Hx. simpl in Hx. apply andb_true_iff in Hx as [Hc Hx].
  simpl. unfold is_slash in Hc. apply negb_true_iff in Hc. rewrite Hc.
  now rewrite IH.
Qed.

Lemma rev_rev_app x : String.rev (String.rev_app x EmptyString) = x.
Proof.
  unfold String.rev. rewrite rev_app_twice. simpl. apply str_app_nil_r.
Qed.

(** Whatever precedes it, the path ends in the two given segments. *)
Lemma split_acc_ends x a b : forall cur,
  no_slash a -> no_slash b ->
  exists pre, split_acc "/" cur (x ++ String "/" (a ++ String "/" b))
              = (pre ++ [a; b])%list.
Proof.
  intros cur Ha Hb. revert cur. induction x as [|c x IH]; intros cur.
  - simpl. rewrite (split_acc_segment a EmptyString b Ha).
    rewrite (split_acc_last b EmptyString Hb), !rev_rev_app.
    exists [String.rev cur]. reflexivity.
  - change (String c x ++ String "/" (a ++ String "/" b))
      with (String c (x ++ String "/" (a ++ String "/" b))).
    simpl. destruct (Ascii.eqb c "/").
    + destruct (IH EmptyString) as (pre & ->).
      exists (String.rev cur :: pre). reflexivity.
    + apply IH.
Qed.

Lemma second_last_ends pre a b : second_last (pre ++ [a; b]) = a.
Proof. unfold second_last. rewrite rev_app_distr. reflexivity. Qed.

(** A request that falls back re-enters [_getFallbackData] in the world
    of [fallback_entry]. *)
Lemma request_falls_back n endpoint params w wf :
  fallback_entry E endpoint params w = Some wf ->
  _makeRequest E (S n) endpoint params w =
  fallback_with E (_makeRequest E n) endpoint params wf.
Proof.
  unfold fallback_entry. rewrite makeRequest_unfold.
  destruct (cached_truthy _ w); [discriminate|].
  unfold request_after_miss.
  destruct (canAccessEndpoint E endpoint w) as [answer w1].
  destruct (negb answer); [now intros [= ->]|].
  destruct (axios_get E _ w1) as [[st d|err] w2]; [discriminate|].
  destruct (status_is 402 err); simpl; [now intros [= ->]|].
  destruct (status_is 429 err); [now intros [= ->] | discriminate].
Qed.

End FallbackRouting.

Section FallbackAnswers.

Variable E : Env.

Lemma includes_none_longer a b s :
  includes a s = false -> includes (a ++ b) s = false.
Proof.
  intros H. destruct (includes (a ++ b) s) eqn:Hab; [|reflexivity].
  apply includes_app_l in Hab. congruence.
Qed.

Lemma coins_path_includes rest :
  includes "/coins/" ("/public/coins/" ++ rest) = true.
Proof.
  change ("/public/coins/" ++ rest) with ("/public" ++ ("/coins/" ++ rest)).
  apply includes_later, includes_here.
Qed.

Lemma envelope_data data endpoint :
  get_prop (envelope data endpoint) "data" = Ok data.
Proof. reflexivity. Qed.

(** X9. When the request of [getCoinData] falls back, the caller
    receives the mock coin generated for the normalised identifier (for
    an identifier without [/] whose path does not contain
    [/coins/list]). *)
Theorem getCoinData_fallback coin w wf :
  let id := normalizeCoinIdentifier coin in
  let endpoint := "/public/coins/" ++ id ++ "/v1" in
  fallback_entry E endpoint [] w = Some wf ->
  includes "/coins/list" endpoint = false ->
  no_slash id ->
  getCoinData E coin w = Some (Ok (mock_getCoinData E (draws wf) id), draw wf).
Proof.
  intros id endpoint Hentry Hlist Hid.
  unfold getCoinData, bind, depth. fold id. fold endpoint.
  rewrite (request_falls_back E 1 _ _ _ _ Hentry).
  rewrite fallback_final
    by (change "/coins/list/v2" with ("/coins/list" ++ "/v2");
        now apply includes_none_longer).
  unfold mock_envelope, _getMockData. rewrite Hlist.
  unfold endpoint at 1. rewrite coins_path_includes.
  destruct (split_acc_ends "/public/coins" id "v1" EmptyString Hid eq_refl)
    as (pre & Hsplit).
  change ("/public/coins" ++ String "/" (id ++ String "/" "v1"))
    with endpoint in Hsplit.
  unfold split. rewrite Hsplit, second_last_ends. reflexivity.
Qed.

(** X10. When the request of [getTimeSeries] falls back, the caller
    receives no series: the mock is the single coin generated for the
    symbol [time-series], whatever coin was asked for (as long as the
    path does not contain [/coins/list]). *)
Theorem getTimeSeries_fallback coin interval limit w wf :
  let id := normalizeCoinIdentifier coin in
  let endpoint := "/public/coins/" ++ id ++ "/time-series/v2" in
  let params := [("interval", JStr interval); ("limit", JNum (inject_Z limit))] in
  fallback_entry E endpoint params w = Some wf ->
  includes "/coins/list" endpoint = false ->
  getTimeSeries E coin interval limit w
    = Some (Ok (mock_getCoinData E (draws wf) "time-series"), draw wf).
Proof.
  intros id endpoint params Hentry Hlist.
  unfold getTimeSeries, bind, depth. fold id. fold endpoint. fold params.
  rewrite (request_falls_back E 1 _ _ _ _ Hentry).
  rewrite fallback_final
    by (change "/coins/list/v2" with ("/coins/list" ++ "/v2");
        now apply includes_none_longer).
  unfold mock_envelope, _getMockData. rewrite Hlist.
  unfold endpoint at 1. rewrite coins_path_includes.
  destruct (split_acc_ends ("/public/coins/" ++ id) "time-series" "v2"
                           EmptyString eq_refl eq_refl)
    as (pre & Hsplit).
  change (("/public/coins/" ++ id) ++ String "/" ("time-series" ++ String "/" "v2"))
    with endpoint in Hsplit.
  unfold split. rewrite Hsplit, second_last_ends. reflexivity.
Qed.

Lemma limit_or_50 limit :
  js_or (JNum (inject_Z limit)) (JNum 50) =
  if limit =? 0 then JNum 50 else JNum (inject_Z limit).
Proof.
  unfold js_or, truthy.
  destruct (Z.eqb_spec limit 0) as [->|H]; [reflexivity|].
  destruct (Qeq_bool (inject_Z limit) 0) eqn:Hb; [|reflexivity].
  apply Qeq_bool_iff in Hb. unfold Qeq in Hb. simpl in Hb. lia.
Qed.

(** X11. When the request of [getCoinsList] and the request for its
    free variant both fall back, the caller receives the mock list, with
    the envelope removed; the mock generator is asked for [limit] coins,
    and for 50 when [limit] is 0. *)
Theorem getCoinsList_fallback limit w wf wf2 :
  let params := [("limit", JNum (inject_Z limit))] in
  fallback_entry E "/public/coins/list/v2" params w = Some wf ->
  fallback_entry E free_variant params wf = Some wf2 ->
  getCoinsList E limit w
    = Some (Ok (mock_getCoinsList E (draws wf2)
                  (if limit =? 0 then JNum 50 else JNum (inject_Z limit))),
            draw wf2).
Proof.
  intros params Hentry Hentry2.
  unfold getCoinsList, bind, depth. fold params.
  rewrite (request_falls_back E 1 _ _ _ _ Hentry).
  unfold fallback_with at 1.
  change (includes "/coins/list/v2" "/public/coins/list/v2") with true. cbv iota.
  unfold try_catch. fold free_variant.
  rewrite (request_falls_back E 0 _ _ _ _ Hentry2).
  rewrite fallback_final by apply free_variant_is_final.
  unfold mock_envelope, _getMockData.
  change (includes "/coins/list" free_variant) with true. cbv iota.
  change (own_prop "limit" params) with (JNum (inject_Z limit)).
  rewrite limit_or_50. reflexivity.
Qed.

(** X12. When the request of [getTopicSentiment] falls back, the
    caller receives the mock generated for the topic (for a topic
    without [/] whose path does not contain [/coins/]). *)
Theorem getTopicSentiment_fallback topic days w wf :
  let endpoint := "/public/topic/" ++ topic ++ "/v1" in
  fallback_entry E endpoint [] w = Some wf ->
  includes "/coins/" endpoint = false ->
  no_slash topic ->
  getTopicSentiment E topic days w
    = Some (Ok (mock_getTopicData E (draws wf) topic), draw wf).
Proof.
  intros endpoint Hentry Hcoins Htopic.
  unfold getTopicSentiment, bind, depth. fold endpoint.
  rewrite (request_falls_back E 1 _ _ _ _ Hentry).
  rewrite fallback_final
    by (change "/coins/list/v2" with ("/coins/" ++ "list/v2");
        now apply includes_none_longer).
  unfold mock_envelope, _getMockData.
  rewrite (includes_none_longer "/coins/" "list" _ Hcoins : includes "/coins/list" endpoint = false).
  rewrite Hcoins.
  assert (Htop : includes "/topic/" endpoint = true).
  { change endpoint with ("/public" ++ ("/topic/" ++ (topic ++ "/v1"))).
    apply includes_later, includes_here. }
  rewrite Htop.
  destruct (split_acc_ends "/public/topic" topic "v1" EmptyString Htopic eq_refl)
    as (pre & Hsplit).
  change ("/public/topic" ++ String "/" (topic ++ String "/" "v1"))
    with endpoint in Hsplit.
  unfold split. rewrite Hsplit, second_last_ends. reflexivity.
Qed.

End FallbackAnswers.

Lemma getCoinData_fallback_witness :
  let E := Demo.env (Demo.always Demo.offline) in
  let w := Demo.new_world None in
  getCoinData E (Some "Bit coin") w
    = Some (Ok (JObj [("s", JStr "bitcoin")]), draw (set_apiTier Invalid (tick w))).
Proof.
  cbv zeta.
  apply (getCoinData_fallback (Demo.env (Demo.always Demo.offline))
           (Some "Bit coin") (Demo.new_world None)
           (set_apiTier Invalid (tick (Demo.new_world None))));
    reflexivity.
Defined.

Lemma getTimeSeries_fallback_witness :
  let E := Demo.env (Demo.always (Demo.status 429)) in
  let w := Demo.world_of_tier (Some "key") Paid in
  exists w',
    getTimeSeries E (Some "BTC") "1d" 7 w
      = Some (Ok (JObj [("s", JStr "time-series")]), w').
Proof.
  cbv zeta. eexists.
  eapply (getTimeSeries_fallback (Demo.env (Demo.always (Demo.status 429)))
           (Some "BTC") "1d" 7 (Demo.world_of_tier (Some "key") Paid));
    reflexivity.
Defined.

Lemma getCoinsList_fallback_witness :
  let E := Demo.env (Demo.always (Demo.status 429)) in
  let w := Demo.world_of_tier (Some "key") Paid in
  exists w',
    getCoinsList E 0 w = Some (Ok (mock_getCoinsList E 0 (JNum 50)), w').
Proof.
  cbv zeta. eexists.
  eapply (getCoinsList_fallback (Demo.env (Demo.always (Demo.status 429))) 0
           (Demo.world_of_tier (Some "key") Paid));
    reflexivity.
Defined.

Lemma getTopicSentiment_fallback_witness :
  let E := Demo.env (Demo.always Demo.offline) in
  let w := Demo.new_world None in
  exists w',
    getTopicSentiment E "bitcoin" (JNum 7) w
      = Some (Ok (JObj [("topic", JStr "bitcoin")]), w').
Proof.
  cbv zeta. eexists.
  eapply (getTopicSentiment_fallback (Demo.env (Demo.always Demo.offline))
           "bitcoin" (JNum 7) (Demo.new_world None));
    reflexivity.
Defined.

(** The topic [coins] is the exception: its path contains [/coins/], and
    the fallback answers with a mock coin. *)
Example getTopicSentiment_coins :
  let E := Demo.env (Demo.always Demo.offline) in
  exists w',
    getTopicSentiment E "coins" (JNum 7) (Demo.new_world None)
      = Some (Ok (JObj [("s", JStr "coins")]), w').
Proof. cbv zeta. eexists. vm_compute. reflexivity. Qed.

(** ** index.js: [getEcosystemCoins], continued *)

Section EcosystemAnswers.

Variable E : Env.

Lemma filter_sublist {A} (f : A -> bool) (l : list A) :
  List.filter f l `sublist_of` l.
Proof.
  induction l as [|x l IH]; simpl; [constructor|].
  destruct (f x); now constructor.
Qed.

Lemma js_slice0_take {A} limit (l : list A) :
  exists k, js_slice0 limit l = firstn k l /\
            (limit < 0 -> k = (length l - Z.to_nat (- limit))%nat) /\
            (0 <= limit -> k = Z.to_nat limit).
Proof.
  unfold js_slice0. destruct (Z.ltb_spec limit 0).
  - eexists. split; [reflexivity|]. split; [intros _; lia | lia].
  - eexists. split; [reflexivity|]. split; [lia | reflexivity].
Qed.

(** X13. For a name that [Object.prototype] does not define and a
    fetched list of well-shaped coins, [getEcosystemCoins] returns the
    coins of the aliased category, in the order of the list: the first
    [limit] of them when [limit] is not negative, and all but the last
    [-limit] of them when it is; so every coin returned comes from the
    list and is in the category. *)
Theorem getEcosystemCoins_answer ecosystem limit w coins w' :
  existsb (String.eqb ecosystem) object_prototype_names = false ->
  getCoinsList E 200 w = Some (Ok (JArr coins), w') ->
  Forall coin_shape coins ->
  let matches := List.filter (in_category (alias_category ecosystem)) coins in
  exists result,
    getEcosystemCoins E ecosystem limit w = Some (Ok result, w') /\
    result `sublist_of` coins /\
    Forall (fun coin => in_category (alias_category ecosystem) coin = true) result /\
    (0 <= limit -> result = firstn (Z.to_nat limit) matches /\
                   Z.of_nat (length result) <= limit) /\
    (limit < 0 -> result = firstn (length matches - Z.to_nat (- limit)) matches).
Proof.
  intros Hplain Hfetch Hshape matches.
  exists (js_slice0 limit matches).
  assert (Hrun : getEcosystemCoins E ecosystem limit w
                 = Some (Ok (js_slice0 limit matches), w')).
  { unfold getEcosystemCoins, try_catch, bind, lift.
    rewrite (category_of_plain _ Hplain), Hfetch.
    unfold filter_coins.
    rewrite (js_filter_total _ (in_category (alias_category ecosystem))).
    - reflexivity.
    - eapply Forall_impl; [exact Hshape|].
      intros coin Hc. now apply coin_in_category_shape. }
  split; [exact Hrun|].
  destruct (js_slice0_take limit matches) as (k & Hk & Hneg & Hpos).
  split; [|split; [|split]].
  - rewrite Hk. transitivity matches; [apply sublist_take | apply filter_sublist].
  - rewrite Hk. apply Forall_take. apply List.Forall_forall.
    intros coin Hin. subst matches. now apply List.filter_In in Hin.
  - intros Hlimit. rewrite Hk, (Hpos Hlimit). split; [reflexivity|].
    rewrite List.length_firstn. lia.
  - intros Hlimit. now rewrite Hk, (Hneg Hlimit).
Qed.

(** X14. [getEcosystemCoins] filters the whole list before it cuts:
    one [null] among the fetched coins makes the call fail with a
    [TypeError], for every limit (even 0) and wherever the [null]
    stands; so does a fetched value that is no array. *)
Theorem getEcosystemCoins_malformed ecosystem limit w w' :
  existsb (String.eqb ecosystem) object_prototype_names = false ->
  (forall before after,
      getCoinsList E 200 w = Some (Ok (JArr (before ++ JNull :: after)), w') ->
      Forall coin_shape before ->
      getEcosystemCoins E ecosystem limit w
        = Some (Throw (TypeError "Cannot read properties"), w')) /\
  (forall v,
      getCoinsList E 200 w = Some (Ok v, w') ->
      (forall coins, v <> JArr coins) ->
      exists msg, getEcosystemCoins E ecosystem limit w
                  = Some (Throw (TypeError msg), w')).
Proof.
  intros Hplain. split.
  - intros before after Hfetch Hshape.
    unfold getEcosystemCoins, try_catch, bind, lift, throw.
    rewrite (category_of_plain _ Hplain), Hfetch.
    assert (Hf : js_filter (coin_in_category E (CatString (alias_category ecosystem)))
                           (before ++ JNull :: after)
                 = Throw (TypeError "Cannot read properties")).
    { clear Hfetch.
      induction Hshape as [|coin l Hcoin _ IH]; [reflexivity|].
      change ((coin :: l) ++ JNull :: after)%list
        with (coin :: (l ++ JNull :: after))%list.
      cbn [js_filter]. now rewrite (coin_in_category_shape E _ _ Hcoin), IH. }
    unfold filter_coins. now rewrite Hf.
  - intros v Hfetch Hnot.
    unfold getEcosystemCoins, try_catch, bind, lift, throw.
    rewrite (category_of_plain _ Hplain), Hfetch.
    destruct v; simpl; eauto. exfalso. now apply (Hnot items).
Qed.

End EcosystemAnswers.

(** Shows that a concrete coin has one of the shapes of [coin_shape]. *)
Ltac coin_shape_by_cases :=
  eexists; split;
  [ reflexivity
  | first
      [ left; reflexivity
      | right; left; reflexivity
      | right; right; left;
        first [ eexists (cons _ nil); reflexivity
              | eexists (cons _ (cons _ nil)); reflexivity
              | eexists (cons _ (cons _ (cons _ nil))); reflexivity ]
      | right; right; right; eexists; reflexivity ] ].

Lemma six_coins_shape : Forall coin_shape Demo.six_coins.
Proof. repeat constructor; coin_shape_by_cases. Defined.

Lemma getEcosystemCoins_answer_witness :
  let E := Demo.env (Demo.always (Resolved 200 Demo.six_coins_body)) in
  let w := Demo.world_of_tier (Some "key") Paid in
  exists result w',
    getEcosystemCoins E "ai-agents" (-1) w = Some (Ok result, w') /\
    result = [Demo.coin "FET" (JArr [JStr "ai"; JStr "defi"])].
Proof.
  cbv zeta.
  eassert (Hfetch : getCoinsList
                      (Demo.env (Demo.always (Resolved 200 Demo.six_coins_body)))
                      200 (Demo.world_of_tier (Some "key") Paid)
                    = Some (Ok (JArr Demo.six_coins), _))
    by (vm_compute; reflexivity).
  destruct (getEcosystemCoins_answer _ "ai-agents" (-1) _ _ _
              eq_refl Hfetch six_coins_shape)
    as (result & Hrun & _ & _ & _ & Hneg).
  eexists. eexists. split; [exact Hrun|].
  rewrite Hneg by lia. reflexivity.
Defined.

Lemma getEcosystemCoins_malformed_witness :
  let body := JObj [("data", JArr [Demo.coin "BTC" (JStr "bitcoin"); JNull])] in
  let E := Demo.env (Demo.always (Resolved 200 body)) in
  let w := Demo.world_of_tier (Some "key") Paid in
  exists w',
    getEcosystemCoins E "solana" 0 w
      = Some (Throw (TypeError "Cannot read properties"), w').
Proof.
  cbv zeta.
  eassert (Hfetch : getCoinsList
                      (Demo.env (Demo.always (Resolved 200
                         (JObj [("data", JArr [Demo.coin "BTC" (JStr "bitcoin"); JNull])]))))
                      200 (Demo.world_of_tier (Some "key") Paid)
                    = Some (Ok (JArr ([Demo.coin "BTC" (JStr "bitcoin")] ++ JNull :: [])), _))
    by (vm_compute; reflexivity).
  eexists.
  eapply (getEcosystemCoins_malformed _ "solana" 0 _ _ eq_refl); [exact Hfetch|].
  repeat constructor. coin_shape_by_cases.
Defined.

(** ** index.js: the aggregates, continued *)

Lemma fold_Qplus_acc l : forall a,
  (fold_left Qplus l a == a + fold_left Qplus l 0)%Q.
Proof.
  induction l as [|x l IH]; intros a; simpl.
  - ring.
  - rewrite (IH (a + x)%Q), (IH (0 + x)%Q). ring.
Qed.

Lemma sum_Q_insert la x lb :
  (sum_Q (la ++ x :: lb) == sum_Q (la ++ lb) + x)%Q.
Proof.
  unfold sum_Q. rewrite !fold_left_app. cbn [fold_left].
  rewrite (fold_Qplus_acc lb (fold_left Qplus la 0 + x)%Q).
  rewrite (fold_Qplus_acc lb (fold_left Qplus la 0)%Q). ring.
Qed.

Lemma mean_Q_insert_zero la x lb :
  (x == 0)%Q ->
  (mean_Q (la ++ x :: lb)
   == sum_Q (la ++ lb) / inject_Z (Z.of_nat (S (length (la ++ lb)))))%Q.
Proof.
  intros Hx. unfold mean_Q.
  assert (Hsum : (sum_Q (la ++ x :: lb) == sum_Q (la ++ lb))%Q).
  { rewrite sum_Q_insert. setoid_rewrite Hx. apply Qplus_0_r. }
  rewrite Hsum, !List.length_app. cbn [length]. rewrite Nat.add_succ_r. reflexivity.
Qed.

Lemma num_or_absent x :
  x = None \/ (exists q, x = Some q /\ (q == 0)%Q) -> num_or x 0 = 0%Q.
Proof.
  intros [->|(q & -> & Hq)]; [reflexivity|].
  unfold num_or. apply Qeq_bool_iff in Hq. now rewrite Hq.
Qed.

(** X15. A point without a sentiment score (or with the score 0) is
    not skipped by the average sentiment: it adds nothing to the sum
    and still counts in the divisor.  The same holds for a point
    without social volume and the average engagement. *)
Theorem missing_value_dilutes_average l1 d l2 :
  (gs d = None \/ (exists q, gs d = Some q /\ (q == 0)%Q) ->
   (_calculateAverageSentiment (Some (l1 ++ d :: l2)%list)
    == sum_Q (List.map (fun p => num_or (gs p) 0) (l1 ++ l2))
       / inject_Z (Z.of_nat (S (length (l1 ++ l2)))))%Q) /\
  (sv d = None \/ (exists q, sv d = Some q /\ (q == 0)%Q) ->
   (_calculateAverageEngagement (Some (l1 ++ d :: l2)%list)
    == sum_Q (List.map engagement (l1 ++ l2))
       / inject_Z (Z.of_nat (S (length (l1 ++ l2)))))%Q).
Proof.
  split; intros Habsent.
  - assert (Hmean : _calculateAverageSentiment (Some (l1 ++ d :: l2)%list)
                    = mean_Q (List.map (fun p => num_or (gs p) 0%Q) (l1 ++ d :: l2)))
      by (destruct l1; reflexivity).
    rewrite Hmean, !List.map_app. cbn [List.map].
    rewrite mean_Q_insert_zero by (rewrite (num_or_absent _ Habsent); reflexivity).
    now rewrite !List.length_app, !List.length_map.
  - assert (Hmean : _calculateAverageEngagement (Some (l1 ++ d :: l2)%list)
                    = mean_Q (List.map engagement (l1 ++ d :: l2)))
      by (destruct l1; reflexivity).
    rewrite Hmean, !List.map_app. cbn [List.map].
    rewrite mean_Q_insert_zero.
    + now rewrite !List.length_app, !List.length_map.
    + unfold engagement. rewrite (num_or_absent _ Habsent).
      unfold Qdiv. apply Qmult_0_l.
Qed.

Lemma volume_acc l : forall a,
  (fold_left (fun acc d => acc + num_or (sv d) 0) l a
   == a + fold_left (fun acc d => acc + num_or (sv d) 0) l 0)%Q.
Proof.
  induction l as [|d l IH]; intros a; simpl.
  - ring.
  - rewrite (IH (a + num_or (sv d) 0)%Q), (IH (0 + num_or (sv d) 0)%Q). ring.
Qed.

Lemma volume_fold l :
  (_calculateTotalSocialVolume (Some l)
   == fold_left (fun acc d => acc + num_or (sv d) 0) l 0)%Q.
Proof. destruct l; reflexivity. Qed.

(** X16. A point without social volume (or with the volume 0) leaves
    the total social volume as it is without the point, and a sequence
    whose volumes are not negative has a total that is not negative. *)
Theorem total_volume_skips_missing l1 d l2 :
  (sv d = None \/ (exists q, sv d = Some q /\ (q == 0)%Q) ->
   (_calculateTotalSocialVolume (Some (l1 ++ d :: l2)%list)
    == _calculateTotalSocialVolume (Some (l1 ++ l2)%list))%Q) /\
  (Forall (fun p => (0 <= num_or (sv p) 0)%Q) l1 ->
   (0 <= _calculateTotalSocialVolume (Some l1))%Q).
Proof.
  split.
  - intros Habsent. rewrite !volume_fold, !fold_left_app. cbn [fold_left].
    rewrite (num_or_absent _ Habsent).
    rewrite (volume_acc l2 (fold_left _ l1 0 + 0)%Q).
    rewrite (volume_acc l2 (fold_left _ l1 0)%Q). ring.
  - intros Hall. rewrite volume_fold.
    induction Hall as [|p l Hp _ IH]; simpl; [apply Qle_refl|].
    rewrite (volume_acc l (0 + num_or (sv p) 0)%Q).
    apply (Qle_trans _ (0 + 0)%Q); [discriminate|].
    apply Qplus_le_compat; [|exact IH].
    now rewrite Qplus_0_l.
Qed.

Lemma missing_value_dilutes_average_witness :
  let d1 := mkPoint (Some 80%Q) (Some 300%Q) (Some 3%Q) in
  let d0 := mkPoint None None None in
  (_calculateAverageSentiment (Some [d1; d0]) == 40)%Q /\
  (_calculateAverageEngagement (Some [d0; d1]) == 50)%Q.
Proof.
  cbv zeta.
  destruct (missing_value_dilutes_average
              [mkPoint (Some 80%Q) (Some 300%Q) (Some 3%Q)]
              (mkPoint None None None) []) as (Hsent & _).
  destruct (missing_value_dilutes_average
              [] (mkPoint None None None)
              [mkPoint (Some 80%Q) (Some 300%Q) (Some 3%Q)]) as (_ & Heng).
  split.
  - change [mkPoint (Some 80%Q) (Some 300%Q) (Some 3%Q); mkPoint None None None]
      with ([mkPoint (Some 80%Q) (Some 300%Q) (Some 3%Q)]
              ++ mkPoint None None None :: [])%list.
    rewrite Hsent by (left; reflexivity). reflexivity.
  - change [mkPoint None None None; mkPoint (Some 80%Q) (Some 300%Q) (Some 3%Q)]
      with ([] ++ mkPoint None None None
               :: [mkPoint (Some 80%Q) (Some 300%Q) (Some 3%Q)])%list.
    rewrite Heng by (left; reflexivity). reflexivity.
Defined.

Lemma total_volume_skips_missing_witness :
  let d1 := mkPoint None (Some 300%Q) None in
  let d0 := mkPoint None None None in
  (_calculateTotalSocialVolume (Some [d1; d0; d1]) == 600)%Q /\
  (0 <= _calculateTotalSocialVolume (Some [d1; d0]))%Q.
Proof.
  cbv zeta.
  destruct (total_volume_skips_missing
              [mkPoint None (Some 300%Q) None] (mkPoint None None None)
              [mkPoint None (Some 300%Q) None]) as (Hskip & _).
  destruct (total_volume_skips_missing
              [mkPoint None (Some 300%Q) None; mkPoint None None None]
              (mkPoint None None None) []) as (_ & Hpos).
  split.
  - change [mkPoint None (Some 300%Q) None; mkPoint None None None;
            mkPoint None (Some 300%Q) None]
      with ([mkPoint None (Some 300%Q) None]
              ++ mkPoint None None None :: [mkPoint None (Some 300%Q) None])%list.
    rewrite Hskip by (left; reflexivity). reflexivity.
  - apply Hpos. repeat constructor; vm_compute; discriminate.
Defined.

(** ** auth.js and index.js: the public operations on the free tier *)

Section FreeTier.

Variable E : Env.









End FreeTier.


(** ** index.js: [getEcosystemCoins] at the names of [Object.prototype] *)

Section InheritedNames.

Variable E : Env.

Lemma split_acc_nonempty sep s : forall cur, split_acc sep cur s <> [].
Proof.
  induction s as [|c s IH]; intros cur; simpl; [discriminate|].
  destruct (Ascii.eqb c sep); [discriminate | apply IH].
Qed.

Lemma inherited_name_category name :
  existsb (String.eqb name) object_prototype_names = true ->
  category_of name = CatInherited name.
Proof.
  intros H. apply List.existsb_exists in H as (x & Hin & Heq).
  apply String.eqb_eq in Heq. subst x.
  unfold object_prototype_names in Hin. simpl in Hin.
  repeat (destruct Hin as [<-|Hin]; [reflexivity|]). contradiction.
Qed.

Lemma js_some_inherited name c rest :
  js_some (same_category (CatInherited name)) (JStr c :: rest)
  = Throw (TypeError "category.toLowerCase is not a function").
Proof. reflexivity. Qed.

Lemma coin_in_category_inherited name coin :
  coin_shape coin ->
  coin_in_category E (CatInherited name) coin =
  match category_set coin with
  | [] => Ok false
  | _ :: _ => Throw (TypeError "category.toLowerCase is not a function")
  end.
Proof.
  intros (props & -> & Hcats).
  unfold coin_in_category, category_set. simpl get_prop. cbv iota.
  destruct Hcats as [H | [H | [(ss & H) | (s & H)]]]; rewrite H; simpl.
  - reflexivity.
  - reflexivity.
  - rewrite strings_of_strings. destruct ss; reflexivity.
  - destruct (String.eqb s "") eqn:Hs; simpl; [reflexivity|].
    unfold split_trim, split.
    destruct (split_acc "," EmptyString s) as [|c rest] eqn:Hsplit.
    + exfalso. now apply (split_acc_nonempty "," s EmptyString).
    + reflexivity.
Qed.

(** X18. For a name that [Object.prototype] defines, the filter of
    [getEcosystemCoins] fails with a [TypeError] as soon as one fetched
    coin carries a category, and answers with no coin when none does,
    whatever the limit. *)
Theorem inherited_ecosystem_name_fails ecosystem limit w coins w' :
  existsb (String.eqb ecosystem) object_prototype_names = true ->
  getCoinsList E 200 w = Some (Ok (JArr coins), w') ->
  Forall coin_shape coins ->
  (Forall (fun coin => category_set coin = []) coins ->
   getEcosystemCoins E ecosystem limit w = Some (Ok [], w')) /\
  (Exists (fun coin => category_set coin <> []) coins ->
   getEcosystemCoins E ecosystem limit w
     = Some (Throw (TypeError "category.toLowerCase is not a function"), w')).
Proof.
  intros Hname Hfetch Hshape.
  unfold getEcosystemCoins, try_catch, bind, lift, throw.
  rewrite (inherited_name_category _ Hname), Hfetch. unfold filter_coins.
  clear Hfetch. split.
  - intros Hnone.
    assert (Hf : js_filter (coin_in_category E (CatInherited ecosystem)) coins = Ok []).
    { induction Hshape as [|coin l Hcoin Hl IH]; [reflexivity|].
      apply Forall_cons in Hnone as [Hc Hrest].
      cbn [js_filter]. rewrite (coin_in_category_inherited _ _ Hcoin), Hc.
      now rewrite (IH Hrest). }
    rewrite Hf. unfold js_slice0.
    destruct (limit <? 0); now rewrite List.firstn_nil.
  - intros Hsome.
    assert (Hf : js_filter (coin_in_category E (CatInherited ecosystem)) coins
                 = Throw (TypeError "category.toLowerCase is not a function")).
    { induction Hshape as [|coin l Hcoin Hl IH]; [inversion Hsome|].
      cbn [js_filter]. rewrite (coin_in_category_inherited _ _ Hcoin).
      destruct (category_set coin) as [|c cs] eqn:Hc; [|reflexivity].
      apply Exists_cons in Hsome as [Habs|Hrest]; [congruence|].
      now rewrite (IH Hrest). }
    now rewrite Hf.
Qed.

End InheritedNames.

Lemma inherited_ecosystem_name_fails_witness :
  let E := Demo.env (Demo.always (Resolved 200 Demo.six_coins_body)) in
  let w := Demo.world_of_tier (Some "key") Paid in
  exists w',
    getEcosystemCoins E "toString" 15 w
      = Some (Throw (TypeError "category.toLowerCase is not a function"), w').
Proof.
  cbv zeta.
  eassert (Hfetch : getCoinsList
                      (Demo.env (Demo.always (Resolved 200 Demo.six_coins_body)))
                      200 (Demo.world_of_tier (Some "key") Paid)
                    = Some (Ok (JArr Demo.six_coins), _))
    by (vm_compute; reflexivity).
  destruct (inherited_ecosystem_name_fails _ "toString" 15 _ _ _
              eq_refl Hfetch six_coins_shape) as (_ & Hthrow).
  eexists. apply Hthrow.
  apply Exists_cons_hd. discriminate.
Defined.
